(** * py_pdf_parser.tables: table reconstruction, shape validation, header merge

    A shallow embedding of [src/py_pdf_parser/tables.py].  Python exceptions
    become the [Raise] branch of a small error monad, lists stay lists (with
    their iteration order), the set of row and column collections is a [gset]
    and the dictionaries returned by [add_header_to_table] are [gmap]s. *)

From stdpp Require Import gmap strings list fin_maps fin_sets.
From Stdlib Require Import ZArith.

Local Open Scope Z_scope.
Local Open Scope nat_scope.
#[local] Set Warnings "-clear-no-such-hyp".

(** ** Exceptions and results *)

(** The payload of the three [TableExtractionError] messages of the module.
    The f-string of [extract_simple_table] interpolates [table_size] and
    [len(elements)]; both numbers are kept. *)
Inductive extraction_message : Type :=
  | SizeMismatch (table_size passed : nat)
  | MultipleRows
  | MultipleColumns.

(** The two [InvalidTableHeaderError] messages. *)
Inductive header_message : Type :=
  | HeaderLength (header_len width : nat)
  | HeaderRepeated.

(** Every exception that the code of the module, the built-ins it calls
    ([list.__getitem__], [list.pop], [min]) and [extract_single_element] can
    raise.  [InvalidTableError first_row_len idx row_len] stands for the message
    "row 0 has [first_row_len] elements but row [idx] has [row_len]". *)
Inductive exception : Type :=
  | IndexError
  | ValueError
  | NoElementFoundError
  | MultipleElementsFoundError
  | TableExtractionError (msg : extraction_message)
  | InvalidTableError (first_row_len idx row_len : nat)
  | InvalidTableHeaderError (msg : header_message).

#[global] Instance extraction_message_eq_dec : EqDecision extraction_message.
Proof. solve_decision. Defined.
#[global] Instance header_message_eq_dec : EqDecision header_message.
Proof. solve_decision. Defined.
#[global] Instance exception_eq_dec : EqDecision exception.
Proof. solve_decision. Defined.

Inductive result (A : Type) : Type :=
  | Ok (a : A)
  | Raise (e : exception).
Arguments Ok {A} a.
Arguments Raise {A} e.

#[global] Instance result_ret : MRet result := λ A a, Ok a.
#[global] Instance result_bind : MBind result := λ A B f r,
  match r with
  | Ok a => f a
  | Raise e => Raise e
  end.

Definition raises {A} (r : result A) : Prop := ∃ e, r = Raise e.

(** [seq[i]] on a Python list: out of range is an [IndexError]. *)
Definition getitem {A} (l : list A) (i : nat) : result A :=
  match l !! i with
  | Some a => Ok a
  | None => Raise IndexError
  end.

(** ** [_validate_table_shape] *)

(** The loop [for idx, row in enumerate(table[1:])]: [idx] is the loop
    counter, the reported row number is [idx + 1]. *)
Fixpoint check_rows {A} (first_row_len idx : nat) (rows : list (list A))
  : result unit :=
  match rows with
  | [] => Ok ()
  | row :: rows' =>
      if decide (length row = first_row_len)
      then check_rows first_row_len (S idx) rows'
      else Raise (InvalidTableError first_row_len (idx + 1) (length row))
  end.

Definition _validate_table_shape {A} (table : list (list A)) : result unit :=
  row0 ← getitem table 0;
  check_rows (length row0) 0 (drop 1 table).

(** ** [_extract_text_from_table], over any element type with a [text] *)

Definition _extract_text_from_table {E} (text : E → string)
    (table : list (list (option E))) : result (list (list string)) :=
  _ ← _validate_table_shape table;
  Ok ((λ row : list (option E),
          (λ element, from_option text EmptyString element) <$> row) <$> table).

(** ** [add_header_to_table] *)

(** Python's [bool(header)]: [None] and the empty list are falsy. *)
Definition truthy {A} (header : option (list A)) : bool :=
  match header with
  | None | Some [] => false
  | Some (_ :: _) => true
  end.

(** The dict comprehension [{header[idx]: element for idx, element in
    enumerate(row)}]: keys are inserted from left to right, a later insertion
    of the same key replaces the value, and [header[idx]] out of range is an
    [IndexError]. *)
Fixpoint new_row_from (header : list string) (idx : nat) (row : list string)
    (acc : gmap string string) : result (gmap string string) :=
  match row with
  | [] => Ok acc
  | element :: row' =>
      key ← getitem header idx;
      new_row_from header (S idx) row' (<[key := element]> acc)
  end.

Definition new_row (header row : list string) : result (gmap string string) :=
  new_row_from header 0 row ∅.

(** [new_table.pop(0)]: removes the first entry, [IndexError] on []. *)
Definition pop0 {A} (l : list A) : result (list A) :=
  match l with
  | [] => Raise IndexError
  | _ :: l' => Ok l'
  end.

Definition add_header_to_table (table : list (list string))
    (header : option (list string)) : result (list (gmap string string)) :=
  _ ← _validate_table_shape table;
  let header_provided := truthy header in
  header ←
    match header with
    | None => getitem table 0
    | Some header =>
        row0 ← getitem table 0;
        if decide (length header ≠ length row0) then
          Raise (InvalidTableHeaderError
                   (HeaderLength (length header) (length row0)))
        else if decide (length header ≠ size (list_to_set header : gset string))
        then Raise (InvalidTableHeaderError HeaderRepeated)
        else Ok header
    end;
  new_table ← mapM (new_row header) table;
  if negb header_provided then pop0 new_table else Ok new_table.

(** ** The element collection collaborator *)

#[global] Instance result_fmap : FMap result := λ A B f r,
  match r with
  | Ok a => Ok (f a)
  | Raise e => Raise e
  end.

(** What the module needs from [PDFElement] and [ElementList], which live in
    other files of the package ([components.py], [filtering.py]).  An
    [ElementList] is represented by the list of its elements in iteration
    order, so [len] is [length], iterating is reading the list, and two
    collections are the same member of a Python set when they list the same
    elements in the same order.  Every query is called with
    [inclusive=True], the only way the module calls it.  Bounding-box
    coordinates are only compared with each other, never computed with, and
    are taken in integral page units. *)
Class Collaborator (Element : Type) : Type := {
  text : Element → string;
  x0 : Element → Z;
  y0 : Element → Z;
  to_the_right_of : list Element → Element → list Element;
  below : list Element → Element → list Element;
  horizontally_in_line_with : list Element → Element → list Element;
  vertically_in_line_with : list Element → Element → list Element;
}.

(** Modelled from the spec: [ElementList.extract_single_element], defined in
    [filtering.py].  It fails with the "no element found" condition on an
    empty collection, with the "ambiguous" condition on a collection of more
    than one element, and returns the element otherwise. *)
Definition extract_single_element {Element} (l : list Element)
  : result Element :=
  match l with
  | [] => Raise NoElementFoundError
  | [element] => Ok element
  | _ :: _ :: _ => Raise MultipleElementsFoundError
  end.

(** [try: body  except NoElementFoundError: handler]. *)
Definition try_except_NoElementFoundError {A} (body handler : result A)
  : result A :=
  match body with
  | Raise NoElementFoundError => handler
  | _ => body
  end.

(** The built-in [min] of a list of numbers: [ValueError] on []. *)
Definition py_min (l : list Z) : result Z :=
  match l with
  | [] => Raise ValueError
  | z :: l' => Ok (foldl Z.min z l')
  end.

(** The built-in [sorted(l, key=key, reverse=reverse)]: the keys are computed
    first, from left to right; the sort is stable, also when reversed. *)
Fixpoint insert_sorted {A} (before : Z → Z → bool) (x : Z * A)
    (l : list (Z * A)) : list (Z * A) :=
  match l with
  | [] => [x]
  | y :: l' =>
      if before x.1 y.1 then x :: y :: l' else y :: insert_sorted before x l'
  end.

Definition sorted {A} (l : list A) (key : A → result Z) (reverse : bool)
  : result (list A) :=
  keyed ← mapM (λ a, k ← key a; Ok (k, a)) l;
  let before := if reverse then (λ a b, b <? a)%Z else (λ a b, a <? b)%Z in
  Ok (snd <$> foldl (λ acc x, insert_sorted before x acc) [] keyed).

Section extractors.
Context {Element : Type} `{Countable Element} `{!Collaborator Element}.

Abbreviation Table := (list (list (option Element))).

(** *** [extract_simple_table] *)

(** One pass of the inner loop body: the probed collection, and the
    [try]/[except] around [extract_single_element]. *)
Definition simple_cell (element_list : list Element)
    (left_hand_element top_element : Element) : result (option Element) :=
  let element :=
    below (to_the_right_of element_list left_hand_element) top_element in
  try_except_NoElementFoundError
    (Some <$> extract_single_element element) (Ok None).

(** Lines 32-46: the anchor, the first row and column, and the two loops. *)
Definition simple_table_cells (element_list : list Element) : result Table :=
  anchor ← getitem element_list 0;
  let first_row := to_the_right_of element_list anchor in
  let first_column := below element_list anchor in
  mapM (λ left_hand_element,
          mapM (simple_cell element_list left_hand_element) first_row)
       first_column.

Definition extract_simple_table (element_list : list Element)
  : result Table :=
  table ← simple_table_cells element_list;
  let table_size := sum_list (length <$> table) in
  if decide (table_size ≠ length element_list) then
    Raise (TableExtractionError
             (SizeMismatch table_size (length element_list)))
  else
    _ ← _validate_table_shape table;
    Ok table.

(** *** [extract_table] *)

(** The first loop: [rows] and [cols] are Python sets of collections. *)
Definition collect_rows_cols (element_list : list Element)
  : gset (list Element) * gset (list Element) :=
  foldl (λ '(rows, cols) element,
           let row := horizontally_in_line_with element_list element in
           let col := vertically_in_line_with element_list element in
           (rows ∪ {[ row ]}, cols ∪ {[ col ]}))
        (∅, ∅) element_list.

(** [sum([len(s) for s in sets])] and [len(set(chain.from_iterable(sets)))]. *)
Definition sum_of_sizes (sets : gset (list Element)) : nat :=
  sum_list (length <$> elements sets).
Definition distinct_elements (sets : gset (list Element)) : gset Element :=
  list_to_set (mjoin (elements sets)).

(** The inner loop body.  Modelled from the spec: [row & col], the set
    intersection of two collections ([ElementList.__and__]), keeps the
    elements of [row] that are in [col]. *)
Definition table_cell (row col : list Element) : result (option Element) :=
  try_except_NoElementFoundError
    (Some <$> extract_single_element (list_intersection row col)) (Ok None).

Definition extract_table (element_list : list Element) : result Table :=
  let '(rows, cols) := collect_rows_cols element_list in
  if decide (sum_of_sizes rows ≠ size (distinct_elements rows)) then
    Raise (TableExtractionError MultipleRows)
  else if decide (sum_of_sizes cols ≠ size (distinct_elements cols)) then
    Raise (TableExtractionError MultipleColumns)
  else
    sorted_rows ← sorted (elements rows) (λ row, py_min (y0 <$> row)) true;
    sorted_cols ← sorted (elements cols) (λ col, py_min (x0 <$> col)) false;
    table ← mapM (λ row, mapM (table_cell row) sorted_cols) sorted_rows;
    _ ← _validate_table_shape table;
    Ok table.

(** *** Text projections *)

Definition extract_text_from_simple_table (element_list : list Element)
  : result (list (list string)) :=
  table ← extract_simple_table element_list;
  _extract_text_from_table text table.

Definition extract_text_from_table (element_list : list Element)
  : result (list (list string)) :=
  table ← extract_table element_list;
  _extract_text_from_table text table.
End extractors.

(** ** A concrete collaborator: boxes on an integer page *)

(** Modelled from the spec: [PDFElement] ([components.py]), reduced to what
    the spec's data model lists, a bounding box with lower-left corner
    ([bb_x0], [bb_y0]), upper-right corner ([bb_x1], [bb_y1]) and a text. *)
Record PDFElement : Type := {
  bb_x0 : Z;
  bb_x1 : Z;
  bb_y0 : Z;
  bb_y1 : Z;
  el_text : string;
}.

#[global] Instance PDFElement_eq_dec : EqDecision PDFElement.
Proof. solve_decision. Defined.

#[global] Instance PDFElement_countable : Countable PDFElement.
Proof.
  refine (inj_countable'
            (λ e, (bb_x0 e, bb_x1 e, bb_y0 e, bb_y1 e, el_text e))
            (λ '(a, b, c, d, t), Build_PDFElement a b c d t) _).
  by intros [].
Defined.

(** Two elements share a row-line when their y-ranges overlap, and a
    column-line when their x-ranges overlap (glossary, "Alignment"). *)
Definition y_overlap (a b : PDFElement) : bool :=
  ((bb_y0 a <? bb_y1 b) && (bb_y0 b <? bb_y1 a))%Z.
Definition x_overlap (a b : PDFElement) : bool :=
  ((bb_x0 a <? bb_x1 b) && (bb_x0 b <? bb_x1 a))%Z.

(** Modelled from the spec: the spatial filters of [ElementList]
    ([filtering.py]) with [inclusive=True].  Each one keeps, in iteration
    order, the reference element and the elements of the collection that lie
    in the given direction on the reference element's line. *)
Definition box_to_the_right_of (l : list PDFElement) (element : PDFElement)
  : list PDFElement :=
  filter (λ e, bool_decide (e = element)
               || ((bb_x1 element <=? bb_x0 e)%Z && y_overlap e element)) l.
Definition box_below (l : list PDFElement) (element : PDFElement)
  : list PDFElement :=
  filter (λ e, bool_decide (e = element)
               || ((bb_y1 e <=? bb_y0 element)%Z && x_overlap e element)) l.
Definition box_horizontally_in_line_with (l : list PDFElement)
    (element : PDFElement) : list PDFElement :=
  filter (λ e, bool_decide (e = element) || y_overlap e element) l.
Definition box_vertically_in_line_with (l : list PDFElement)
    (element : PDFElement) : list PDFElement :=
  filter (λ e, bool_decide (e = element) || x_overlap e element) l.

#[global] Instance box_collaborator : Collaborator PDFElement := {|
  text := el_text;
  x0 := bb_x0;
  y0 := bb_y0;
  to_the_right_of := box_to_the_right_of;
  below := box_below;
  horizontally_in_line_with := box_horizontally_in_line_with;
  vertically_in_line_with := box_vertically_in_line_with;
|}.

(** A 2 x 2 page layout: [cell_a] [cell_b] on the upper line, [cell_c]
    [cell_d] on the lower one. *)
Definition cell_a : PDFElement := Build_PDFElement 0 10 20 30 "a".
Definition cell_b : PDFElement := Build_PDFElement 20 30 20 30 "b".
Definition cell_c : PDFElement := Build_PDFElement 0 10 0 10 "c".
Definition cell_d : PDFElement := Build_PDFElement 20 30 0 10 "d".
(** A second element inside the box of [cell_d]. *)
Definition cell_d' : PDFElement := Build_PDFElement 22 28 2 8 "e".

Definition full_2x2 : list PDFElement := [cell_a; cell_b; cell_c; cell_d].
(** The 2 x 2 layout with its lower right cell missing. *)
Definition gapped_2x2 : list PDFElement := [cell_a; cell_b; cell_c].
(** The 2 x 2 layout with two elements in its lower right cell. *)
Definition crowded_2x2 : list PDFElement :=
  [cell_a; cell_b; cell_c; cell_d; cell_d'].

(** A staircase: each element overlaps the next one in both directions, the
    first and the last do not overlap. *)
Definition step_1 : PDFElement := Build_PDFElement 0 10 12 20 "1".
Definition step_2 : PDFElement := Build_PDFElement 5 15 5 15 "2".
Definition step_3 : PDFElement := Build_PDFElement 12 20 0 10 "3".
Definition staircase : list PDFElement := [step_1; step_2; step_3].

(** The 2 x 2 layout whose fourth element lies on the lower line but further
    right, in a third column. *)
Definition cell_x : PDFElement := Build_PDFElement 40 50 0 10 "x".
Definition ragged : list PDFElement := [cell_a; cell_b; cell_c; cell_x].

(** ** Vocabulary of the statements *)

(** A grid is rectangular of width [width]: it has a row, and all rows have
    [width] cells. *)
Definition rectangular {A} (table : list (list A)) (width : nat) : Prop :=
  table ≠ [] ∧ Forall (λ row, length row = width) table.

(** The mapped row [m] sends the label at every position of [header] to the
    cell at the same position of [row]. *)
Definition maps_position_by_position (header row : list string)
    (m : gmap string string) : Prop :=
  ∀ j label cell,
    header !! j = Some label → row !! j = Some cell → m !! label = Some cell.

(** The cells of a grid that hold an element, and their number in a grid. *)
Definition non_empty_cells {E} (table : list (list (option E))) : nat :=
  sum_list ((λ row : list (option E), length (omap id row)) <$> table).

(** The keyed entries of [l] are in the order of [before]: no entry is
    followed by one that [before] puts strictly in front of it. *)
Fixpoint in_key_order {A} (before : Z → Z → bool) (l : list (Z * A)) : Prop :=
  match l with
  | [] => True
  | x :: l' => Forall (λ y, before y.1 x.1 = false) l' ∧ in_key_order before l'
  end.

(** The text shown for a cell: [element.text], or the empty string. *)
Definition cell_text {E} (text : E → string) (cell : option E) : string :=
  from_option text EmptyString cell.

(** * Theorems *)

(** ** The error monad *)

Lemma bind_Ok {A B} (f : A → result B) (r : result A) (b : B) :
  r ≫= f = Ok b ↔ ∃ a, r = Ok a ∧ f a = Ok b.
Proof.
  destruct r as [a|e]; simpl; split.
  - eauto.
  - by intros (? & [= <-] & ?).
  - done.
  - intros (? & ? & _). discriminate.
Qed.

Lemma bind_Raise {A B} (f : A → result B) (r : result A) (e : exception) :
  r ≫= f = Raise e ↔ r = Raise e ∨ ∃ a, r = Ok a ∧ f a = Raise e.
Proof.
  destruct r as [a|e']; simpl; split.
  - eauto.
  - by intros [[=]|(? & [= <-] & ?)].
  - intros [= <-]. by left.
  - intros [[= ->]|(? & ? & _)]; [done | discriminate].
Qed.

Section mapM_result.
Context {A B : Type} (f : A → result B).

Lemma mapM_Ok (l : list A) (k : list B) :
  mapM f l = Ok k ↔ Forall2 (λ a b, f a = Ok b) l k.
Proof.
  revert k. induction l as [|a l IH]; intros k; simpl.
  - split; [intros [= <-]; constructor | by inversion 1].
  - fold (mapM f l). split.
    + intros (b & Hb & (k' & Hk' & [= <-])%bind_Ok)%bind_Ok.
      constructor; [done | by apply IH].
    + inversion 1 as [|? b ? k' Hb Hk']; subst.
      apply IH in Hk'. by rewrite Hb, Hk'.
Qed.

Lemma mapM_Ok_length (l : list A) (k : list B) :
  mapM f l = Ok k → length k = length l.
Proof. intros ?%mapM_Ok. symmetry. by eapply Forall2_length. Qed.

(** A failing [mapM] failed at one of its elements, with that element's
    exception. *)
Lemma mapM_Raise (l : list A) (e : exception) :
  mapM f l = Raise e → ∃ a, a ∈ l ∧ f a = Raise e.
Proof.
  induction l as [|a l IH]; simpl; [done|].
  intros [Ha | (b & Hb & [Hl | (? & _ & [=])]%bind_Raise)]%bind_Raise.
  - exists a. split; [left | done].
  - destruct (IH Hl) as (a' & ? & ?). exists a'. split; [by right | done].
Qed.

(** If some element fails, the whole [mapM] fails. *)
Lemma mapM_raises (l : list A) (a : A) :
  a ∈ l → raises (f a) → raises (mapM f l).
Proof.
  intros Hin [e He]. induction l as [|a' l IH]; [by inversion Hin|]. simpl.
  destruct (f a') as [b|e'] eqn:Ha'; simpl; [|by eexists].
  apply elem_of_cons in Hin as [->|Hin]; [congruence|].
  destruct (IH Hin) as [e' He']. exists e'. fold (mapM f l). by rewrite He'.
Qed.
End mapM_result.

(** ** Shape validation *)

Lemma check_rows_Ok {A} (n idx : nat) (rows : list (list A)) :
  check_rows n idx rows = Ok () ↔ Forall (λ row, length row = n) rows.
Proof.
  revert idx. induction rows as [|row rows IH]; intros idx; simpl.
  - split; [constructor | done].
  - case_decide as Hlen.
    + rewrite IH, Forall_cons. tauto.
    + split; [done | by inversion 1].
Qed.

(** When the loop fails it names the first row whose length is not [n]. *)
Lemma check_rows_Raise {A} (n idx : nat) (rows : list (list A)) :
  check_rows n idx rows ≠ Ok () →
  ∃ k row,
    rows !! k = Some row ∧ length row ≠ n ∧
    Forall (λ row', length row' = n) (take k rows) ∧
    check_rows n idx rows = Raise (InvalidTableError n (idx + k + 1) (length row)).
Proof.
  revert idx. induction rows as [|row rows IH]; intros idx; simpl; [done|].
  case_decide as Hlen.
  - intros (k & row' & ? & ? & ? & ->)%IH. exists (S k), row'.
    split_and!; [done | done | by constructor | do 2 f_equal; lia].
  - intros _. exists 0, row.
    split_and!; [done | done | constructor | do 2 f_equal; lia].
Qed.

Lemma validate_table_shape_Ok {A} (table : list (list A)) :
  _validate_table_shape table = Ok () ↔
  ∃ row0 rest, table = row0 :: rest ∧ Forall (λ row, length row = length row0) rest.
Proof.
  unfold _validate_table_shape, getitem. destruct table as [|row0 rest]; simpl.
  - split; [done | by intros (? & ? & ? & _)].
  - rewrite drop_0, check_rows_Ok. split; [eauto | by intros (? & ? & [= <- <-] & ?)].
Qed.

Lemma validate_table_shape_rectangular {A} (table : list (list A)) :
  _validate_table_shape table = Ok () ↔ ∃ width, rectangular table width.
Proof.
  rewrite validate_table_shape_Ok. unfold rectangular. split.
  - intros (row0 & rest & -> & Hrest). exists (length row0).
    split; [done | by constructor].
  - intros (width & Hne & Hall). destruct table as [|row0 rest]; [done|].
    apply Forall_cons in Hall as [<- Hrest]. eauto.
Qed.

(** C5: on a grid with a row 0, [_validate_table_shape] succeeds exactly when
    every row is as long as row 0; otherwise it raises [InvalidTableError]
    naming the length of row 0, the index of the first row of another length
    and that row's length.  On [[["a","b"],["c"]]] the error names row 1,
    expected length 2, actual length 1. *)
Theorem validate_table_shape_spec {A} (row0 : list A) (rest : list (list A)) :
  let table := row0 :: rest in
  (_validate_table_shape table = Ok () ↔
   ∀ row, row ∈ table → length row = length row0)
  ∧ (_validate_table_shape table ≠ Ok () →
     ∃ idx row,
       table !! idx = Some row ∧ length row ≠ length row0 ∧
       (∀ j row', j < idx → table !! j = Some row' →
                  length row' = length row0) ∧
       _validate_table_shape table
       = Raise (InvalidTableError (length row0) idx (length row)))
  ∧ _validate_table_shape [["a"; "b"]; ["c"]]
    = Raise (InvalidTableError 2 1 1).
Proof.
  simpl. split_and!; [| |done].
  - rewrite validate_table_shape_Ok. split.
    + intros (? & ? & [= <- <-] & Hrest) row [->|Hin]%elem_of_cons; [done|].
      by eapply Forall_forall in Hrest.
    + intros Hall. exists row0, rest. split; [done|].
      apply Forall_forall. intros row Hin. apply Hall. by right.
  - unfold _validate_table_shape, getitem. simpl. rewrite drop_0.
    intros (k & row & Hk & Hlen & Hbefore & ->)%check_rows_Raise.
    exists (S k), row. split_and!; [done | done | | do 2 f_equal; lia].
    intros [|j] row' Hj; simpl; [by intros [= <-]|]. intros Hj'.
    eapply Forall_lookup_1 in Hbefore; [done|].
    rewrite lookup_take_lt; [done | lia].
Qed.

(** C10: on the empty grid [_validate_table_shape] raises the built-in
    [IndexError] (from [table[0]]), not one of the module's own errors, and
    so does every operation that validates first: [add_header_to_table] with
    any header, [_extract_text_from_table], and, for the empty collection,
    [extract_table] and [extract_text_from_table], whose grid is empty. *)
Theorem empty_grid_raises_IndexError :
  (∀ A, _validate_table_shape (@nil (list A)) = Raise IndexError)
  ∧ (∀ header, add_header_to_table [] header = Raise IndexError)
  ∧ (∀ E (text : E → string), _extract_text_from_table text [] = Raise IndexError)
  ∧ (∀ Element `{Countable Element} `{!Collaborator Element},
       extract_table (Element:=Element) [] = Raise IndexError
       ∧ extract_text_from_table (Element:=Element) [] = Raise IndexError).
Proof.
  split_and!; [done | done | done |].
  intros Element ? ? ?.
  (* The sets of rows and columns of the empty collection are empty, both
     sums are 0 and the grid has no row. *)
  split; reflexivity.
Qed.

(** ** Header merge *)

Section list_to_set_size.
Context `{Countable K}.

Lemma size_list_to_set_le (l : list K) :
  size (list_to_set l : gset K) ≤ length l.
Proof.
  induction l as [|x l IH]; simpl; [done|].
  rewrite size_union_alt, size_singleton.
  assert (list_to_set l ∖ {[x]} ⊆ (list_to_set l : gset K)) as Hsub%subseteq_size
    by set_solver.
  lia.
Qed.

(** [len(header) != len(set(header))] tests for a repeated label. *)
Lemma size_list_to_set_NoDup (l : list K) :
  size (list_to_set l : gset K) = length l ↔ NoDup l.
Proof.
  split; [|apply size_list_to_set].
  induction l as [|x l IH]; simpl; [constructor|].
  rewrite size_union_alt, size_singleton. intros Hsize.
  pose proof (size_list_to_set_le l) as Hle.
  assert (list_to_set l ∖ {[x]} ⊆ (list_to_set l : gset K)) as Hsub%subseteq_size
    by set_solver.
  assert (x ∉ l) as Hx.
  { intros Hin.
    assert ({[x]} ⊆ (list_to_set l : gset K)) as Hdiff%size_difference
      by set_solver.
    rewrite size_singleton in Hdiff.
    assert (size (list_to_set l : gset K) ≠ 0); [|lia].
    intros Hzero%size_empty_inv. set_solver. }
  constructor; [done|]. apply IH. lia.
Qed.
End list_to_set_size.

(** The dict comprehension on a row that is not longer than the header. *)
Lemma new_row_from_Ok (header : list string) (row : list string) :
  ∀ idx acc,
    idx + length row ≤ length header →
    ∃ m, new_row_from header idx row acc = Ok m
         ∧ dom m = dom acc ∪ list_to_set (take (length row) (drop idx header))
         ∧ (∀ label, label ∉ take (length row) (drop idx header) →
                     m !! label = acc !! label)
         ∧ (NoDup header →
            ∀ j label cell, header !! (idx + j) = Some label →
                            row !! j = Some cell → m !! label = Some cell).
Proof.
  induction row as [|element row IH]; intros idx acc Hlen; simpl in *.
  - exists acc. split_and!; [done | set_solver | done | done].
  - destruct (lookup_lt_is_Some_2 header idx) as [key Hkey]; [lia|].
    unfold getitem. rewrite Hkey. simpl.
    destruct (IH (S idx) (<[key := element]> acc)) as (m & -> & Hdom & Hframe & Hpos);
      [lia|].
    rewrite (drop_S _ _ _ Hkey). simpl. exists m. split_and!.
    + done.
    + rewrite Hdom, dom_insert_L. set_solver.
    + intros label [Hne Hnin]%not_elem_of_cons.
      rewrite Hframe, lookup_insert_ne; done.
    + intros Hnodup [|j] label cell Hj Hcell; simpl in *.
      * rewrite Nat.add_0_r in Hj. simplify_eq.
        rewrite Hframe; [apply lookup_insert_eq|].
        intros Hin%subseteq_take.
        rewrite <-(take_drop idx header), (drop_S _ _ _ Hkey) in Hnodup.
        apply NoDup_app in Hnodup as (_ & _ & Hnodup).
        by apply NoDup_cons in Hnodup as [? _].
      * apply (Hpos Hnodup j); [|done].
        by replace (S (idx + j)) with (idx + S j) by lia.
Qed.

Lemma new_row_Ok (header row : list string) :
  length row = length header →
  ∃ m, new_row header row = Ok m
       ∧ dom m = list_to_set header
       ∧ (NoDup header → maps_position_by_position header row m).
Proof.
  intros Hlen.
  destruct (new_row_from_Ok header row 0 ∅) as (m & Hm & Hdom & _ & Hpos);
    [simpl; lia|].
  exists m. split_and!; [done | |].
  - rewrite Hdom, dom_empty_L, drop_0, Hlen, take_ge by done. set_solver.
  - intros Hnodup j label cell. apply (Hpos Hnodup j).
Qed.

(** The loop [for row in table] of [add_header_to_table] on rows that are as
    long as the header: it maps every row, in order. *)
Lemma mapM_new_row (header : list string) (rows : list (list string)) :
  Forall (λ row, length row = length header) rows →
  ∃ out, mapM (new_row header) rows = Ok out
         ∧ length out = length rows
         ∧ ∀ i row, rows !! i = Some row →
             ∃ m, out !! i = Some m
                  ∧ dom m = list_to_set header
                  ∧ (NoDup header → maps_position_by_position header row m).
Proof.
  induction 1 as [|row rows Hrow _ (out & Hout & Hlen & Hrows)]; simpl.
  - exists []. by split_and!.
  - destruct (new_row_Ok header row Hrow) as (m & -> & Hdom & Hpos). simpl.
    fold (mapM (new_row header) rows). rewrite Hout. simpl.
    exists (m :: out). split_and!; [done | by simpl; f_equal |].
    intros [|i] row' Hi; simpl in *; [|by apply Hrows].
    injection Hi as <-. eauto.
Qed.

(** [add_header_to_table] once the shape and the header are accepted. *)
Lemma add_header_accepted (row0 : list string) (rest : list (list string))
    (header : option (list string)) (labels : list string) :
  Forall (λ row, length row = length row0) rest →
  match header with
  | None => labels = row0
  | Some h => labels = h ∧ length h = length row0 ∧ NoDup h
  end →
  add_header_to_table (row0 :: rest) header
  = (new_table ← mapM (new_row labels) (row0 :: rest);
     if negb (truthy header) then pop0 new_table else Ok new_table).
Proof.
  intros Hrest Hheader. unfold add_header_to_table.
  assert (_validate_table_shape (row0 :: rest) = Ok ()) as ->
    by (apply validate_table_shape_Ok; eauto).
  cbn [mbind result_bind]. destruct header as [h|].
  - destruct Hheader as (-> & Hlen & Hnodup%size_list_to_set_NoDup).
    unfold getitem. cbn [lookup list_lookup mbind result_bind].
    rewrite decide_False by (intros ?; done).
    by rewrite decide_False by (intros ?; done).
  - by subst labels.
Qed.

(** C8: on a rectangular grid, an explicit header whose length differs from
    the grid's width is rejected with [InvalidTableHeaderError], and so is a
    header of the right length that repeats a label. *)
Theorem add_header_invalid_header_raises (table : list (list string))
    (width : nat) (header : list string) :
  rectangular table width →
  (length header ≠ width →
   add_header_to_table table (Some header)
   = Raise (InvalidTableHeaderError (HeaderLength (length header) width)))
  ∧ (length header = width → ¬ NoDup header →
     add_header_to_table table (Some header)
     = Raise (InvalidTableHeaderError HeaderRepeated)).
Proof.
  intros [Hne Hall]. destruct table as [|row0 rest]; [done|].
  apply Forall_cons in Hall as [Hrow0 Hrest]. unfold add_header_to_table.
  assert (_validate_table_shape (row0 :: rest) = Ok ()) as ->.
  { apply validate_table_shape_Ok. exists row0, rest. split; [done|].
    by rewrite Hrow0. }
  unfold getitem. cbn [lookup list_lookup mbind result_bind]. rewrite Hrow0.
  split.
  - intros Hlen. by rewrite decide_True.
  - intros Hlen Hdup. rewrite decide_False by (intros ?; done).
    rewrite decide_True; [done|].
    intros Hsize. apply Hdup, size_list_to_set_NoDup. done.
Qed.

Lemma add_header_invalid_header_raises_witness :
  add_header_to_table [["1"; "2"; "3"]] (Some ["A"; "B"])
  = Raise (InvalidTableHeaderError (HeaderLength 2 3))
  ∧ add_header_to_table [["1"; "2"; "3"]] (Some ["A"; "A"; "B"])
    = Raise (InvalidTableHeaderError HeaderRepeated).
Proof.
  assert (rectangular [["1"; "2"; "3"]] 3) as Hrect.
  { split; [discriminate | repeat constructor]. }
  split.
  - apply (add_header_invalid_header_raises _ 3 ["A"; "B"] Hrect).
    simpl. lia.
  - apply (add_header_invalid_header_raises _ 3 ["A"; "A"; "B"] Hrect).
    + reflexivity.
    + intros Hnodup. apply NoDup_cons in Hnodup as [Hnin _].
      apply Hnin. left.
Defined.

(** Where the labels of row 0 are pairwise distinct: on a rectangular grid
    [G] with such a row 0, [add_header_to_table(G, None)] returns
    [len(G) - 1] mapped rows, each keyed by the labels of [G[0]], and row [i]
    of the output maps every entry of [G[0]] to the entry of [G[i+1]] at the
    same position. *)
Lemma add_header_implicit_spec (row0 : list string)
    (rest : list (list string)) :
  Forall (λ row, length row = length row0) rest →
  NoDup row0 →
  ∃ out,
    add_header_to_table (row0 :: rest) None = Ok out
    ∧ length out = length (row0 :: rest) - 1
    ∧ ∀ i row, rest !! i = Some row →
        ∃ m, out !! i = Some m
             ∧ dom m = list_to_set row0
             ∧ maps_position_by_position row0 row m.
Proof.
  intros Hrest Hnodup.
  rewrite (add_header_accepted row0 rest None row0) by done.
  destruct (mapM_new_row row0 (row0 :: rest)) as (out & -> & Hlen & Hrows);
    [by constructor|].
  destruct out as [|m0 out]; [done|]. simpl in *. exists out.
  split_and!; [done | lia |].
  intros i row Hi. destruct (Hrows (S i) row Hi) as (m & ? & ? & Hmap).
  exists m. split_and!; [done | done | by apply Hmap].
Qed.

Lemma add_header_implicit_spec_witness :
  ∃ out,
    add_header_to_table [["x"; "y"]; ["1"; "2"]; ["3"; "4"]] None = Ok out
    ∧ length out = 2.
Proof.
  destruct (add_header_implicit_spec ["x"; "y"] [["1"; "2"]; ["3"; "4"]])
    as (out & Hout & Hlen & _).
  - repeat constructor.
  - apply (bool_decide_unpack _). vm_compute. exact I.
  - exists out. split; [exact Hout | exact Hlen].
Defined.

(** C7: with the label "a" at both positions of row 0 and no header passed,
    the call is not rejected and its only output row maps "a" to "2": the
    entry at position 0 of row 0 is not mapped to the entry at position 0 of
    row 1, whose value "1" is lost. *)
Theorem add_header_implicit_repeated_label :
  add_header_to_table [["a"; "a"]; ["1"; "2"]] None = Ok [{["a" := "2"]}]
  ∧ ¬ maps_position_by_position ["a"; "a"] ["1"; "2"] {["a" := "2"]}.
Proof.
  split; [reflexivity|].
  intros Hmap. specialize (Hmap 0 "a" "1" eq_refl eq_refl).
  rewrite lookup_singleton_eq in Hmap. discriminate.
Qed.

(** C3: a grid whose row 0 repeats a label is accepted when no header is
    passed, and the returned row has one key for two columns. *)
Theorem add_header_repeated_first_row_accepted :
  add_header_to_table [["a"; "a"]; ["1"; "2"]] None = Ok [{["a" := "2"]}]
  ∧ size (dom ({["a" := "2"]} : gmap string string)) = 1
  ∧ add_header_to_table [["a"; "a"]; ["1"; "2"]] (Some ["a"; "a"])
    = Raise (InvalidTableHeaderError HeaderRepeated).
Proof. split_and!; reflexivity. Qed.

(** The explicit-header branch of [add_header_to_table] on a grid that has
    passed the validator. *)
Lemma add_header_explicit (row0 : list string) (rest : list (list string))
    (header : list string) :
  Forall (λ row, length row = length row0) rest →
  add_header_to_table (row0 :: rest) (Some header)
  = if decide (length header ≠ length row0) then
      Raise (InvalidTableHeaderError
               (HeaderLength (length header) (length row0)))
    else if decide (length header ≠ size (list_to_set header : gset string))
    then Raise (InvalidTableHeaderError HeaderRepeated)
    else new_table ← mapM (new_row header) (row0 :: rest);
         if negb (truthy (Some header)) then pop0 new_table else Ok new_table.
Proof.
  intros Hrest. unfold add_header_to_table.
  assert (_validate_table_shape (row0 :: rest) = Ok ()) as ->
    by (apply validate_table_shape_Ok; eauto).
  unfold getitem. cbn [lookup list_lookup mbind result_bind].
  by repeat case_decide.
Qed.

(** Whenever a header is passed and a table is returned, every returned row
    is keyed by exactly the labels of the header, which are pairwise
    distinct, one per column. *)
Lemma add_header_explicit_keys (table : list (list string)) (width : nat)
    (header : list string) (out : list (gmap string string)) :
  rectangular table width →
  add_header_to_table table (Some header) = Ok out →
  NoDup header ∧ length header = width
  ∧ ∀ m, m ∈ out → dom m = list_to_set header ∧ size (dom m) = width.
Proof.
  intros [Hne Hall] Hout. destruct table as [|row0 rest]; [done|].
  pose proof Hall as [Hrow0 Hrest]%Forall_cons.
  rewrite add_header_explicit in Hout by (by rewrite Hrow0).
  case_decide as Hlen; [done|]. case_decide as Hdup; [done|].
  assert (length header = width) as Hwidth by lia.
  assert (NoDup header) as Hnodup by (apply size_list_to_set_NoDup; lia).
  split_and!; [done | done |].
  destruct (mapM_new_row header (row0 :: rest)) as (out' & Hout' & _ & Hrows);
    [by rewrite Hwidth|].
  rewrite Hout' in Hout. simpl in Hout.
  assert (∀ m, m ∈ out' → dom m = list_to_set header) as Hdom.
  { intros m (i & Hi)%list_elem_of_lookup.
    apply mapM_Ok in Hout'.
    destruct (Forall2_lookup_r _ _ _ _ _ Hout' Hi) as (row & Hrow & _).
    destruct (Hrows i row Hrow) as (m' & Hm' & Hdom & _). congruence. }
  intros m Hm. assert (m ∈ out') as Hm'%Hdom.
  { destruct header; simpl in Hout.
    - destruct out'; simpl in Hout; simplify_eq. by right.
    - by simplify_eq. }
  split; [done|]. rewrite Hm', size_list_to_set by done. done.
Qed.

(** C4: an explicit empty header on a grid of width 0 passes both header
    checks, but [bool(header)] is false for it, so the first row is removed
    as if no header had been passed: one row becomes no row, two rows become
    one. *)
Theorem add_header_empty_header_drops_first_row :
  add_header_to_table [[]] (Some []) = Ok []
  ∧ add_header_to_table [[]; []] (Some []) = Ok [∅]
  ∧ add_header_to_table [[]; []] None = Ok [∅].
Proof. split_and!; reflexivity. Qed.

(** What does hold for C4: an accepted header with at least one label keeps
    every row of the grid, the first one included. *)
Lemma add_header_nonempty_header_keeps_rows (table : list (list string))
    (width : nat) (header : list string) :
  rectangular table width → header ≠ [] →
  length header = width → NoDup header →
  ∃ out, add_header_to_table table (Some header) = Ok out
         ∧ length out = length table
         ∧ ∀ i row, table !! i = Some row →
             ∃ m, out !! i = Some m ∧ maps_position_by_position header row m.
Proof.
  intros [Hne Hall] Hheader Hlen Hnodup.
  destruct table as [|row0 rest]; [done|].
  pose proof Hall as [Hrow0 Hrest]%Forall_cons.
  rewrite (add_header_accepted row0 rest (Some header) header);
    [| by rewrite Hrow0 | by rewrite Hrow0].
  destruct (mapM_new_row header (row0 :: rest)) as (out & -> & Hout & Hrows);
    [by rewrite Hlen|].
  destruct header; [done|]. simpl. exists out. split_and!; [done | done |].
  intros i row Hi. destruct (Hrows i row Hi) as (m & ? & _ & ?). eauto.
Qed.

(** ** Which exceptions each step can raise *)

Lemma validate_table_shape_Raise {A} (table : list (list A)) (e : exception) :
  _validate_table_shape table = Raise e →
  e = IndexError ∨ ∃ n idx len, e = InvalidTableError n idx len.
Proof.
  unfold _validate_table_shape, getitem. destruct table as [|row0 rest]; simpl.
  - intros [= <-]. by left.
  - intros Hraise. right.
    destruct (check_rows_Raise (length row0) 0 (drop 0 rest))
      as (k & row & _ & _ & _ & Heq); [by rewrite Hraise|].
    rewrite Heq in Hraise. injection Hraise as <-. eauto.
Qed.

Lemma try_except_Ok_None {E} (body : result E) :
  try_except_NoElementFoundError (Some <$> body) (Ok None) = Ok None
  ↔ body = Raise NoElementFoundError.
Proof. destruct body as [?|[]]; simpl; split; done. Qed.

Lemma try_except_Raise {E} (body : result E) (e : exception) :
  try_except_NoElementFoundError (Some <$> body) (Ok None) = Raise e
  ↔ body = Raise e ∧ e ≠ NoElementFoundError.
Proof.
  destruct body as [a|e']; simpl.
  { split; [done | by intros [? _]]. }
  destruct (decide (e' = NoElementFoundError)) as [->|Hne]; simpl.
  - split; [done | by intros [[= <-] ?]].
  - destruct e'; try done;
      (split; [by intros [= <-] | by intros [[= <-] _]]).
Qed.

Lemma extract_single_element_Raise {E} (l : list E) (e : exception) :
  extract_single_element l = Raise e →
  e = NoElementFoundError ∨ e = MultipleElementsFoundError.
Proof. destruct l as [|? [|? ?]]; simpl; intros [= <-]; auto. Qed.

Lemma py_min_Ok (l : list Z) : l ≠ [] → ∃ z, py_min l = Ok z.
Proof. destruct l; [done|]. simpl. eauto. Qed.

(** ** The dense extractor *)

Lemma sum_list_lengths {A} (table : list (list A)) (n : nat) :
  Forall (λ row, length row = n) table →
  sum_list (length <$> table) = length table * n.
Proof.
  induction 1 as [|row table Hrow _ IH]; [done|].
  rewrite fmap_cons. simpl. rewrite IH, Hrow. lia.
Qed.

Lemma non_empty_cells_le {E} (table : list (list (option E))) :
  non_empty_cells table ≤ sum_list (length <$> table).
Proof.
  unfold non_empty_cells. induction table as [|row table IH]; csimpl; [done|].
  assert (length (omap id row) ≤ length row); [|lia].
  clear. induction row as [|[e|] row IH]; csimpl; lia.
Qed.

Section dense_extractor.
Context {Element : Type} `{Countable Element} `{!Collaborator Element}.
Implicit Types (element_list : list Element).
Implicit Types (table : list (list (option Element))).

Lemma simple_cell_Raise element_list left_hand_element top_element e :
  simple_cell element_list left_hand_element top_element = Raise e →
  e = MultipleElementsFoundError.
Proof.
  unfold simple_cell. intros [Hraise Hne]%try_except_Raise.
  by apply extract_single_element_Raise in Hraise as [->| ->].
Qed.

Lemma simple_table_cells_Raise element_list e :
  simple_table_cells element_list = Raise e →
  (e = IndexError ∧ element_list = []) ∨ e = MultipleElementsFoundError.
Proof.
  unfold simple_table_cells, getitem.
  destruct element_list as [|anchor rest] eqn:Hlist; simpl;
    [intros [= <-]; by left|]. rewrite <-Hlist.
  intros (left_hand_element & _ & (top & _ & Hcell)%mapM_Raise)%mapM_Raise.
  right. by eapply simple_cell_Raise.
Qed.

(** The grid of the two loops has one row per element of the first column
    and, in each row, one cell per element of the first row. *)
Lemma simple_table_cells_shape element_list table :
  simple_table_cells element_list = Ok table →
  ∃ anchor,
    element_list !! 0 = Some anchor
    ∧ length table = length (below element_list anchor)
    ∧ Forall (λ row, length row = length (to_the_right_of element_list anchor))
             table.
Proof.
  unfold simple_table_cells, getitem.
  destruct (element_list !! 0) as [anchor|]; simpl; [|done].
  intros Hrows%mapM_Ok. exists anchor. split_and!; [done | |].
  - symmetry. by eapply Forall2_length.
  - apply Forall_forall. intros row (i & Hi)%list_elem_of_lookup.
    destruct (Forall2_lookup_r _ _ _ _ _ Hrows Hi) as (left & _ & Hrow).
    by apply mapM_Ok_length in Hrow.
Qed.

Lemma extract_simple_table_unfold element_list table :
  simple_table_cells element_list = Ok table →
  extract_simple_table element_list
  = if decide (sum_list (length <$> table) ≠ length element_list) then
      Raise (TableExtractionError
               (SizeMismatch (sum_list (length <$> table)) (length element_list)))
    else _ ← _validate_table_shape table; Ok table.
Proof. unfold extract_simple_table. by intros ->. Qed.

(** C1, as amended.  Let the two loops complete with a grid; its cells are
    counted with the empty ones ([sum_list (length <$> table)]) and without
    them ([non_empty_cells table]).  A grid that has an empty cell although
    it has as many cells as the collection has elements is not covered.
    Everywhere else [extract_simple_table] raises [TableExtractionError]
    exactly when the number of cells holding an element differs from
    [len(elements)] or the grid has an empty cell; a grid without empty cell
    and with as many cells as elements is returned.  The error is raised
    whenever the number of all cells differs from [len(elements)], and never
    before the loops have completed. *)
Theorem extract_simple_table_size_error element_list :
  (∀ msg,
     extract_simple_table element_list = Raise (TableExtractionError msg) →
     ∃ table,
       simple_table_cells element_list = Ok table
       ∧ (non_empty_cells table ≠ length element_list
          ∨ non_empty_cells table < sum_list (length <$> table)))
  ∧ ∀ table,
      simple_table_cells element_list = Ok table →
      (¬ (non_empty_cells table < sum_list (length <$> table)
          ∧ sum_list (length <$> table) = length element_list) →
       ((∃ msg, extract_simple_table element_list
                = Raise (TableExtractionError msg))
        ↔ (non_empty_cells table ≠ length element_list
           ∨ non_empty_cells table < sum_list (length <$> table))))
      ∧ (sum_list (length <$> table) ≠ length element_list →
         extract_simple_table element_list
         = Raise (TableExtractionError
                    (SizeMismatch (sum_list (length <$> table))
                                  (length element_list))))
      ∧ (non_empty_cells table = sum_list (length <$> table) →
         sum_list (length <$> table) = length element_list →
         extract_simple_table element_list = Ok table)
      ∧ (∃ anchor,
           element_list !! 0 = Some anchor
           ∧ sum_list (length <$> table)
             = length (below element_list anchor)
               * length (to_the_right_of element_list anchor)).
Proof.
  assert (∀ table msg,
            simple_table_cells element_list = Ok table →
            extract_simple_table element_list
            = Raise (TableExtractionError msg) →
            sum_list (length <$> table) ≠ length element_list) as Hraised.
  { intros table msg Hcells Hraise Hsize.
    rewrite (extract_simple_table_unfold _ _ Hcells) in Hraise.
    rewrite decide_False in Hraise by (intros ?; done).
    apply bind_Raise in Hraise as [Hvalid|(? & _ & [=])].
    by apply validate_table_shape_Raise in Hvalid as [?|(? & ? & ? & ?)]. }
  assert (∀ table,
            simple_table_cells element_list = Ok table →
            sum_list (length <$> table) ≠ length element_list →
            extract_simple_table element_list
            = Raise (TableExtractionError
                       (SizeMismatch (sum_list (length <$> table))
                                     (length element_list)))) as Hdiffers.
  { intros table Hcells Hsize.
    rewrite (extract_simple_table_unfold _ _ Hcells). by rewrite decide_True. }
  split.
  - intros msg Hraise.
    destruct (simple_table_cells element_list) as [table|e] eqn:Hcells.
    + exists table. split; [done|].
      pose proof (Hraised table msg eq_refl Hraise).
      pose proof (non_empty_cells_le table). lia.
    + unfold extract_simple_table in Hraise. rewrite Hcells in Hraise.
      injection Hraise as ->.
      by apply simple_table_cells_Raise in Hcells as [[? _]|?].
  - intros table Hcells. pose proof (non_empty_cells_le table) as Hle.
    split_and!.
    + intros Hcovered. split.
      * intros [msg Hraise]. pose proof (Hraised table msg Hcells Hraise). lia.
      * intros Hcount. eexists. apply Hdiffers; [done | lia].
    + by apply Hdiffers.
    + intros Hfull Hsize. rewrite (extract_simple_table_unfold _ _ Hcells).
      rewrite decide_False by (intros ?; done).
      destruct (simple_table_cells_shape _ _ Hcells)
        as (anchor & Hanchor & Hlen & Hrows).
      assert (_validate_table_shape table = Ok ()) as ->; [|done].
      apply validate_table_shape_rectangular. eexists. split; [|done].
      intros ->. destruct element_list; [done|]. simpl in Hsize. lia.
    + destruct (simple_table_cells_shape _ _ Hcells)
        as (anchor & ? & Hlen & Hrows).
      exists anchor. split; [done|].
      by rewrite (sum_list_lengths _ _ Hrows), Hlen.
Qed.

(** The dense extractor never fails in its final shape validation: the grid
    of the two loops is rectangular by construction, and the size check has
    already rejected the grid without rows. *)
Lemma extract_simple_table_Raise element_list e :
  extract_simple_table element_list = Raise e →
  e = IndexError ∨ e = MultipleElementsFoundError
  ∨ ∃ table_size, e = TableExtractionError
                        (SizeMismatch table_size (length element_list)).
Proof.
  destruct (simple_table_cells element_list) as [table|e'] eqn:Hcells.
  - rewrite (extract_simple_table_unfold _ _ Hcells).
    case_decide as Hsize; [intros [= <-]; eauto|].
    destruct (simple_table_cells_shape _ _ Hcells) as (anchor & Hanchor & Hlen & Hrows).
    assert (_validate_table_shape table = Ok ()) as ->; [|done].
    apply validate_table_shape_rectangular. eexists. split; [|done].
    intros ->. simpl in Hsize. destruct element_list; [done|].
    simpl in Hsize. lia.
  - unfold extract_simple_table. rewrite Hcells. intros [= <-].
    apply simple_table_cells_Raise in Hcells as [[? _]|?]; auto.
Qed.

(** A grid returned by the dense extractor has passed the validator. *)
Lemma extract_simple_table_Ok element_list table :
  extract_simple_table element_list = Ok table →
  simple_table_cells element_list = Ok table
  ∧ sum_list (length <$> table) = length element_list
  ∧ _validate_table_shape table = Ok ().
Proof.
  unfold extract_simple_table.
  intros (table' & Hcells & Hrest)%bind_Ok. case_decide as Hsize; [done|].
  apply bind_Ok in Hrest as ([] & Hvalid & [= ->]).
  split_and!; [done | lia | done].
Qed.
End dense_extractor.

(** ** Collections that share an element *)

Section shared_elements.
Context `{Countable K}.
Implicit Types (ls : list (list K)).

(** Some element occurs in two different collections of [ls]. *)
Lemma join_NoDup_disjoint ls (r1 r2 : list K) (x : K) :
  NoDup (mjoin ls) → NoDup ls →
  r1 ∈ ls → r2 ∈ ls → x ∈ r1 → x ∈ r2 → r1 = r2.
Proof.
  induction ls as [|r ls IH]; csimpl; [by inversion 3|].
  intros (Hr & Hdisj & Hjoin)%NoDup_app [Hnin Hnodup]%NoDup_cons.
  intros [->|Hin1]%elem_of_cons [->|Hin2]%elem_of_cons Hx1 Hx2.
  - done.
  - destruct (Hdisj x Hx1). apply list_elem_of_join. eauto.
  - destruct (Hdisj x Hx2). apply list_elem_of_join. eauto.
  - by apply IH.
Qed.

Lemma join_not_NoDup_shared ls :
  Forall NoDup ls → NoDup ls → ¬ NoDup (mjoin ls) →
  ∃ x r1 r2, r1 ∈ ls ∧ r2 ∈ ls ∧ r1 ≠ r2 ∧ x ∈ r1 ∧ x ∈ r2.
Proof.
  induction 1 as [|r ls Hr _ IH]; csimpl; [by intros _ []; constructor|].
  intros [Hnin Hnodup]%NoDup_cons Hdup.
  destruct (decide (Exists (λ x, x ∈ mjoin ls) r)) as [Hshared|Hfresh].
  - apply Exists_exists in Hshared as (x & Hx & (r2 & Hx2 & Hr2)%list_elem_of_join).
    exists x, r, r2. split_and!; [left | by right | | done | done].
    by intros ->.
  - destruct IH as (x & r1 & r2 & ? & ? & ? & ? & ?); [done | |].
    + intros Hjoin. apply Hdup, NoDup_app. split_and!; [done | | done].
      intros x Hx Hx'. apply Hfresh, Exists_exists. eauto.
    + exists x, r1, r2. split_and!; [by right | by right | done..].
Qed.

(** [sum(len(r) for r in ls) != len(set(chain.from_iterable(ls)))], for
    duplicate-free collections that are pairwise different. *)
Lemma sum_sizes_differs_iff_shared ls :
  Forall NoDup ls → NoDup ls →
  sum_list (length <$> ls) ≠ size (list_to_set (mjoin ls) : gset K)
  ↔ ∃ x r1 r2, r1 ∈ ls ∧ r2 ∈ ls ∧ r1 ≠ r2 ∧ x ∈ r1 ∧ x ∈ r2.
Proof.
  intros Hall Hnodup. rewrite <-length_join. split.
  - intros Hsize. apply join_not_NoDup_shared; [done | done |].
    intros Hjoin%size_list_to_set_NoDup. by apply Hsize.
  - intros (x & r1 & r2 & Hr1 & Hr2 & Hne & Hx1 & Hx2) Hsize.
    symmetry in Hsize. apply size_list_to_set_NoDup in Hsize.
    by apply Hne, (join_NoDup_disjoint ls r1 r2 x).
Qed.
End shared_elements.

(** ** The built-in [sorted] *)

Lemma insert_sorted_Permutation {A} (before : Z → Z → bool) (x : Z * A)
    (l : list (Z * A)) :
  insert_sorted before x l ≡ₚ x :: l.
Proof.
  induction l as [|y l IH]; simpl; [done|].
  destruct (before x.1 y.1); [done|]. by rewrite IH, Permutation_swap.
Qed.

Lemma foldl_insert_sorted_Permutation {A} (before : Z → Z → bool)
    (l acc : list (Z * A)) :
  foldl (λ acc x, insert_sorted before x acc) acc l ≡ₚ l ++ acc.
Proof.
  revert acc. induction l as [|x l IH]; intros acc; simpl; [done|].
  by rewrite IH, insert_sorted_Permutation, Permutation_middle.
Qed.

Lemma sorted_Ok {A} (l l' : list A) (key : A → result Z) (reverse : bool) :
  sorted l key reverse = Ok l' → l' ≡ₚ l.
Proof.
  unfold sorted. intros (keyed & Hkeyed%mapM_Ok & [= <-])%bind_Ok.
  rewrite foldl_insert_sorted_Permutation, app_nil_r.
  induction Hkeyed as [|a ka l keyed Ha _ IH]; csimpl; [done|].
  apply bind_Ok in Ha as (k & _ & [= <-]). simpl. by rewrite IH.
Qed.

Lemma sorted_Raise {A} (l : list A) (key : A → result Z) (reverse : bool)
    (e : exception) :
  sorted l key reverse = Raise e → ∃ a, a ∈ l ∧ key a = Raise e.
Proof.
  unfold sorted. intros [Hkeyed|(? & _ & [=])]%bind_Raise.
  apply mapM_Raise in Hkeyed as (a & Ha & [Hkey|(? & _ & [=])]%bind_Raise).
  eauto.
Qed.

Lemma raises_bind {A B} (r : result A) (f : A → result B) :
  raises r → raises (r ≫= f).
Proof. intros [e ->]. by exists e. Qed.

(** ** The alignment extractor *)

Section alignment_extractor.
Context {Element : Type} `{Countable Element} `{!Collaborator Element}.
Implicit Types (element_list row col : list Element).
Implicit Types (table : list (list (option Element))).

(** The sets built by the first loop. *)
Lemma collect_rows_cols_spec element_list :
  collect_rows_cols element_list
  = (list_to_set (horizontally_in_line_with element_list <$> element_list),
     list_to_set (vertically_in_line_with element_list <$> element_list)).
Proof.
  unfold collect_rows_cols.
  generalize (horizontally_in_line_with element_list).
  generalize (vertically_in_line_with element_list). intros v h.
  assert (∀ l (rows cols : gset (list Element)),
    foldl (λ '(rows, cols) element, (rows ∪ {[h element]}, cols ∪ {[v element]}))
          (rows, cols) l
    = (rows ∪ list_to_set (h <$> l), cols ∪ list_to_set (v <$> l))) as Hfold.
  { induction l as [|x l IH]; intros rows cols; csimpl.
    - f_equal; set_solver.
    - rewrite IH. f_equal; set_solver. }
  rewrite Hfold. f_equal; set_solver.
Qed.

Lemma elem_of_rows element_list row :
  row ∈ (collect_rows_cols element_list).1
  ↔ ∃ element, element ∈ element_list
               ∧ row = horizontally_in_line_with element_list element.
Proof.
  rewrite collect_rows_cols_spec. simpl.
  rewrite elem_of_list_to_set, list_elem_of_fmap. naive_solver.
Qed.

Lemma elem_of_cols element_list col :
  col ∈ (collect_rows_cols element_list).2
  ↔ ∃ element, element ∈ element_list
               ∧ col = vertically_in_line_with element_list element.
Proof.
  rewrite collect_rows_cols_spec. simpl.
  rewrite elem_of_list_to_set, list_elem_of_fmap. naive_solver.
Qed.

Lemma table_cell_Raise row col e :
  table_cell row col = Raise e → e = MultipleElementsFoundError.
Proof.
  unfold table_cell. intros [Hraise Hne]%try_except_Raise.
  by apply extract_single_element_Raise in Hraise as [->| ->].
Qed.

Lemma extract_table_rows_error element_list :
  sum_of_sizes (collect_rows_cols element_list).1
  ≠ size (distinct_elements (collect_rows_cols element_list).1) →
  extract_table element_list = Raise (TableExtractionError MultipleRows).
Proof.
  unfold extract_table. destruct (collect_rows_cols element_list) as [rows cols].
  simpl. intros Hrows. by rewrite decide_True.
Qed.

Lemma extract_table_cols_error element_list :
  sum_of_sizes (collect_rows_cols element_list).1
  = size (distinct_elements (collect_rows_cols element_list).1) →
  sum_of_sizes (collect_rows_cols element_list).2
  ≠ size (distinct_elements (collect_rows_cols element_list).2) →
  extract_table element_list = Raise (TableExtractionError MultipleColumns).
Proof.
  unfold extract_table. destruct (collect_rows_cols element_list) as [rows cols].
  simpl. intros Hrows Hcols.
  rewrite decide_False by (intros ?; done). by rewrite decide_True.
Qed.

(** Past the two checks: sorting, the two loops and the validation. *)
Lemma extract_table_checked element_list :
  sum_of_sizes (collect_rows_cols element_list).1
  = size (distinct_elements (collect_rows_cols element_list).1) →
  sum_of_sizes (collect_rows_cols element_list).2
  = size (distinct_elements (collect_rows_cols element_list).2) →
  extract_table element_list
  = (sorted_rows ← sorted (elements (collect_rows_cols element_list).1)
                          (λ row, py_min (y0 <$> row)) true;
     sorted_cols ← sorted (elements (collect_rows_cols element_list).2)
                          (λ col, py_min (x0 <$> col)) false;
     table ← mapM (λ row, mapM (table_cell row) sorted_cols) sorted_rows;
     _ ← _validate_table_shape table;
     Ok table).
Proof.
  unfold extract_table. destruct (collect_rows_cols element_list) as [rows cols].
  simpl. intros Hrows Hcols.
  rewrite decide_False by (intros ?; done).
  by rewrite decide_False by (intros ?; done).
Qed.

(** No [TableExtractionError] is raised past the two checks. *)
Lemma extract_table_checked_Raise element_list e :
  sum_of_sizes (collect_rows_cols element_list).1
  = size (distinct_elements (collect_rows_cols element_list).1) →
  sum_of_sizes (collect_rows_cols element_list).2
  = size (distinct_elements (collect_rows_cols element_list).2) →
  extract_table element_list = Raise e →
  ∀ msg, e ≠ TableExtractionError msg.
Proof.
  intros Hrows Hcols. rewrite extract_table_checked by done. intros Hraise msg ->.
  apply bind_Raise in Hraise as [Hsort|(sorted_rows & _ & Hraise)].
  { apply sorted_Raise in Hsort as (row & _ & Hmin). by destruct (y0 <$> row). }
  apply bind_Raise in Hraise as [Hsort|(sorted_cols & _ & Hraise)].
  { apply sorted_Raise in Hsort as (col & _ & Hmin). by destruct (x0 <$> col). }
  apply bind_Raise in Hraise as [Hloop|(table & _ & Hraise)].
  { apply mapM_Raise in Hloop as (row & _ & (col & _ & Hcell)%mapM_Raise).
    by apply table_cell_Raise in Hcell. }
  apply bind_Raise in Hraise as [Hvalid|(? & _ & [=])].
  by apply validate_table_shape_Raise in Hvalid as [?|(? & ? & ? & ?)].
Qed.

Lemma extract_table_Ok element_list table :
  extract_table element_list = Ok table → _validate_table_shape table = Ok ().
Proof.
  unfold extract_table. destruct (collect_rows_cols element_list) as [rows cols].
  repeat case_decide; [done..|].
  intros (? & _ & (? & _ & (table' & _ & Hvalid)%bind_Ok)%bind_Ok)%bind_Ok.
  by apply bind_Ok in Hvalid as ([] & Hvalid & [= ->]).
Qed.

(** C6, as the code has it: [extract_table] raises the "multiple rows" error
    exactly when the sizes of the distinct row collections do not add up to
    the number of distinct elements in them, that is (collections being
    duplicate-free) when some element is in two different row collections.
    The "multiple columns" error is raised exactly when the row check has
    passed and the same sum differs for the column collections, which in
    turn means that some element is in two different column collections. *)
Theorem extract_table_membership_errors element_list :
  Forall (λ element, NoDup (horizontally_in_line_with element_list element))
         element_list →
  Forall (λ element, NoDup (vertically_in_line_with element_list element))
         element_list →
  let rows := (collect_rows_cols element_list).1 in
  let cols := (collect_rows_cols element_list).2 in
  (extract_table element_list = Raise (TableExtractionError MultipleRows)
   ↔ sum_of_sizes rows ≠ size (distinct_elements rows))
  ∧ (sum_of_sizes rows ≠ size (distinct_elements rows)
     ↔ ∃ element r1 r2,
         r1 ∈ rows ∧ r2 ∈ rows ∧ r1 ≠ r2 ∧ element ∈ r1 ∧ element ∈ r2)
  ∧ (extract_table element_list = Raise (TableExtractionError MultipleColumns)
     ↔ sum_of_sizes rows = size (distinct_elements rows)
       ∧ sum_of_sizes cols ≠ size (distinct_elements cols))
  ∧ (sum_of_sizes cols ≠ size (distinct_elements cols)
     ↔ ∃ element c1 c2,
         c1 ∈ cols ∧ c2 ∈ cols ∧ c1 ≠ c2 ∧ element ∈ c1 ∧ element ∈ c2).
Proof.
  intros Hrows Hcols rows cols.
  assert (∀ sets : gset (list Element),
    (∀ s, s ∈ sets → NoDup s) →
    sum_of_sizes sets ≠ size (distinct_elements sets)
    ↔ ∃ element s1 s2,
        s1 ∈ sets ∧ s2 ∈ sets ∧ s1 ≠ s2 ∧ element ∈ s1 ∧ element ∈ s2)
    as Hshared.
  { intros sets Hsets. unfold sum_of_sizes, distinct_elements.
    rewrite sum_sizes_differs_iff_shared.
    - by setoid_rewrite elem_of_elements.
    - apply Forall_forall. intros s Hs%elem_of_elements. by apply Hsets.
    - apply NoDup_elements. }
  split_and!.
  - split; [|apply extract_table_rows_error].
    intros Hraise Hsum.
    destruct (decide (sum_of_sizes cols = size (distinct_elements cols)))
      as [Hsum'|Hsum'].
    + by eapply (extract_table_checked_Raise element_list).
    + by rewrite extract_table_cols_error in Hraise.
  - apply Hshared. intros row (element & Hin & ->)%elem_of_rows.
    by eapply Forall_forall in Hrows.
  - split; [|by intros [? ?]; apply extract_table_cols_error].
    intros Hraise.
    destruct (decide (sum_of_sizes rows = size (distinct_elements rows)))
      as [Hsum|Hsum]; [|by rewrite extract_table_rows_error in Hraise].
    split; [done|]. intros Hsum'.
    by eapply (extract_table_checked_Raise element_list).
  - apply Hshared. intros col (element & Hin & ->)%elem_of_cols.
    by eapply Forall_forall in Hcols.
Qed.

(** C9: a grid returned by either extractor is rectangular, the validator
    accepts it, and validating it a second time gives the same result. *)
Theorem extracted_table_is_rectangular element_list table :
  extract_simple_table element_list = Ok table
  ∨ extract_table element_list = Ok table →
  (∃ width, rectangular table width)
  ∧ _validate_table_shape table = Ok ()
  ∧ (_validate_table_shape table ≫= λ _, _validate_table_shape table)
    = _validate_table_shape table.
Proof.
  intros Hextract.
  assert (_validate_table_shape table = Ok ()) as Hvalid.
  { destruct Hextract as [Hdense|Halign].
    - by apply extract_simple_table_Ok in Hdense as (_ & _ & ?).
    - by apply extract_table_Ok in Halign. }
  split_and!; [by apply validate_table_shape_rectangular | done |].
  by rewrite Hvalid.
Qed.

(** C2, as the code has it.  Both extractors catch [NoElementFoundError]
    raised by [extract_single_element] on a probed cell and record an empty
    cell.  Nothing else is caught: any other error of a probe makes the
    extractor raise, and the errors of [_validate_table_shape] and of the
    extractors pass through [add_header_to_table], [_extract_text_from_table]
    and the two text extractors unchanged. *)
Theorem only_NoElementFoundError_is_caught element_list :
  (∀ left_hand_element top_element,
     extract_single_element
       (below (to_the_right_of element_list left_hand_element) top_element)
     = Raise NoElementFoundError →
     simple_cell element_list left_hand_element top_element = Ok None)
  ∧ (∀ row col,
       extract_single_element (list_intersection row col)
       = Raise NoElementFoundError →
       table_cell row col = Ok None)
  ∧ (∀ anchor left_hand_element top_element e,
       element_list !! 0 = Some anchor →
       left_hand_element ∈ below element_list anchor →
       top_element ∈ to_the_right_of element_list anchor →
       extract_single_element
         (below (to_the_right_of element_list left_hand_element) top_element)
       = Raise e →
       e ≠ NoElementFoundError →
       extract_simple_table element_list = Raise e)
  ∧ (∀ row col e,
       row ∈ (collect_rows_cols element_list).1 →
       col ∈ (collect_rows_cols element_list).2 →
       extract_single_element (list_intersection row col) = Raise e →
       e ≠ NoElementFoundError →
       raises (extract_table element_list))
  ∧ (∀ (table : list (list string)) e,
       _validate_table_shape table = Raise e →
       ∀ header, add_header_to_table table header = Raise e)
  ∧ (∀ table e,
       _validate_table_shape table = Raise e →
       _extract_text_from_table text table = Raise e)
  ∧ (∀ e, extract_simple_table element_list = Raise e →
          extract_text_from_simple_table element_list = Raise e)
  ∧ (∀ e, extract_table element_list = Raise e →
          extract_text_from_table element_list = Raise e).
Proof.
  split_and!.
  - intros left_hand_element top_element Hprobe. unfold simple_cell.
    by apply try_except_Ok_None.
  - intros row col Hprobe. unfold table_cell. by apply try_except_Ok_None.
  - intros anchor left_hand_element top_element e Hanchor Hleft Htop Hprobe Hne.
    assert (e = MultipleElementsFoundError) as ->
      by (by apply extract_single_element_Raise in Hprobe as [?|?]).
    assert (raises (simple_table_cells element_list)) as [e Hcells].
    { unfold simple_table_cells, getitem. rewrite Hanchor. simpl.
      eapply mapM_raises; [exact Hleft|]. eapply mapM_raises; [exact Htop|].
      exists MultipleElementsFoundError. unfold simple_cell.
      by apply try_except_Raise. }
    unfold extract_simple_table. rewrite Hcells. simpl.
    by apply simple_table_cells_Raise in Hcells as [[_ ->]| ->].
  - intros row col e Hrow Hcol Hprobe Hne.
    destruct (decide (sum_of_sizes (collect_rows_cols element_list).1
                      = size (distinct_elements (collect_rows_cols element_list).1)))
      as [Hrows|Hrows]; [|eexists; by apply extract_table_rows_error].
    destruct (decide (sum_of_sizes (collect_rows_cols element_list).2
                      = size (distinct_elements (collect_rows_cols element_list).2)))
      as [Hcols|Hcols]; [|eexists; by apply extract_table_cols_error].
    rewrite extract_table_checked by done.
    destruct (sorted _ _ true) as [sorted_rows|?] eqn:Hsorted_rows;
      [|by eexists].
    simpl. destruct (sorted _ _ false) as [sorted_cols|?] eqn:Hsorted_cols;
      [|by eexists].
    simpl. apply raises_bind.
    apply sorted_Ok in Hsorted_rows, Hsorted_cols.
    eapply (mapM_raises _ _ row).
    { rewrite Hsorted_rows. by apply elem_of_elements. }
    eapply (mapM_raises _ _ col).
    { rewrite Hsorted_cols. by apply elem_of_elements. }
    exists e. unfold table_cell. by apply try_except_Raise.
  - intros table e Hvalid header. unfold add_header_to_table. by rewrite Hvalid.
  - intros table e Hvalid. unfold _extract_text_from_table. by rewrite Hvalid.
  - intros e Hraise. unfold extract_text_from_simple_table. by rewrite Hraise.
  - intros e Hraise. unfold extract_text_from_table. by rewrite Hraise.
Qed.
End alignment_extractor.

(** ** The extractors on the sample layouts *)

Example extract_simple_table_full :
  extract_simple_table full_2x2
  = Ok [[Some cell_a; Some cell_b]; [Some cell_c; Some cell_d]].
Proof. vm_compute. reflexivity. Qed.

Example extract_table_full :
  extract_table full_2x2
  = Ok [[Some cell_a; Some cell_b]; [Some cell_c; Some cell_d]].
Proof. vm_compute. reflexivity. Qed.

Example extract_text_from_table_gapped :
  extract_text_from_table gapped_2x2 = Ok [["a"; "b"]; ["c"; EmptyString]].
Proof. vm_compute. reflexivity. Qed.

(** Two elements in one cell: the probe raises
    [MultipleElementsFoundError] and both extractors raise it. *)
Example extractors_crowded :
  extract_single_element
    (below (to_the_right_of crowded_2x2 cell_c) cell_b)
  = Raise MultipleElementsFoundError
  ∧ extract_simple_table crowded_2x2 = Raise MultipleElementsFoundError
  ∧ extract_table crowded_2x2 = Raise MultipleElementsFoundError.
Proof. split_and!; vm_compute; reflexivity. Qed.

(** C1, counterexample to the claim as stated: on the 2 x 2 layout without
    its lower right element the grid holds three elements, as many as the
    collection, and [TableExtractionError] is raised all the same, because the
    empty cell is counted too (4 cells against 3 elements). *)
Lemma extract_simple_table_counts_empty_cells :
  simple_table_cells gapped_2x2
  = Ok [[Some cell_a; Some cell_b]; [Some cell_c; None]]
  ∧ non_empty_cells [[Some cell_a; Some cell_b]; [Some cell_c; None]]
    = length gapped_2x2
  ∧ extract_simple_table gapped_2x2
    = Raise (TableExtractionError (SizeMismatch 4 3)).
Proof. split_and!; vm_compute; reflexivity. Qed.

(** The case that C1 as amended does not cover.  On the ragged layout the
    first row and the first column have two elements each, so the grid has
    four cells for four elements and the size check passes; the cell under
    [cell_b] is empty and [cell_x] is in no cell.  [extract_table] places all
    four elements. *)
Example extract_simple_table_ragged :
  extract_simple_table ragged
  = Ok [[Some cell_a; Some cell_b]; [Some cell_c; None]]
  ∧ extract_table ragged
    = Ok [[Some cell_a; Some cell_b; None]; [Some cell_c; None; Some cell_x]].
Proof. split; vm_compute; reflexivity. Qed.

(** C2, counterexample to the claim as stated: in [extract_table] on the
    same layout, the probe of the cell on the line of [cell_c] and in the
    column of [cell_b] raises [NoElementFoundError]; the error is caught, the
    cell is left empty and the table is returned. *)
Lemma extract_table_catches_NoElementFoundError :
  horizontally_in_line_with gapped_2x2 cell_c ∈ (collect_rows_cols gapped_2x2).1
  ∧ vertically_in_line_with gapped_2x2 cell_b ∈ (collect_rows_cols gapped_2x2).2
  ∧ extract_single_element
      (list_intersection (horizontally_in_line_with gapped_2x2 cell_c)
                         (vertically_in_line_with gapped_2x2 cell_b))
    = Raise NoElementFoundError
  ∧ extract_table gapped_2x2
    = Ok [[Some cell_a; Some cell_b]; [Some cell_c; None]].
Proof.
  split_and!.
  - apply elem_of_rows. exists cell_c. split; [|done].
    do 2 right. left.
  - apply elem_of_cols. exists cell_b. split; [|done].
    right. left.
  - vm_compute. reflexivity.
  - vm_compute. reflexivity.
Qed.

(** C6, counterexample to the claim as stated: on the staircase the sizes
    of the column collections add up to 7 for 3 distinct elements, yet the
    error raised is the one of the row check, which comes first. *)
Lemma extract_table_columns_error_preempted :
  sum_of_sizes (collect_rows_cols staircase).2 = 7
  ∧ size (distinct_elements (collect_rows_cols staircase).2) = 3
  ∧ extract_table staircase = Raise (TableExtractionError MultipleRows)
  ∧ extract_table staircase ≠ Raise (TableExtractionError MultipleColumns).
Proof.
  assert (extract_table staircase = Raise (TableExtractionError MultipleRows))
    as Hraise by (vm_compute; reflexivity).
  split_and!; [vm_compute; reflexivity | vm_compute; reflexivity | exact Hraise |].
  rewrite Hraise. discriminate.
Qed.

Lemma extract_table_membership_errors_witness :
  ∃ element r1 r2,
    r1 ∈ (collect_rows_cols staircase).1
    ∧ r2 ∈ (collect_rows_cols staircase).1
    ∧ r1 ≠ r2 ∧ element ∈ r1 ∧ element ∈ r2.
Proof.
  destruct (extract_table_membership_errors staircase) as (_ & Hshared & _).
  - apply (bool_decide_unpack _). vm_compute. exact I.
  - apply (bool_decide_unpack _). vm_compute. exact I.
  - apply Hshared. vm_compute. discriminate.
Defined.

Lemma extracted_table_is_rectangular_witness :
  ∃ width, rectangular [[Some cell_a; Some cell_b]; [Some cell_c; None]] width.
Proof.
  apply (extracted_table_is_rectangular gapped_2x2).
  right. vm_compute. reflexivity.
Defined.

(** * Further properties of the module *)

(** ** Text projection *)

(** On a rectangular grid [_extract_text_from_table] returns a grid of the
    same shape, in which every cell holds the text of the element at the
    same place, or the empty string where the cell is empty. *)
Theorem text_projection_keeps_shape {E} (text : E → string)
    (table : list (list (option E))) (width : nat) :
  rectangular table width →
  ∃ out,
    _extract_text_from_table text table = Ok out
    ∧ length out = length table
    ∧ rectangular out width
    ∧ ∀ i row, table !! i = Some row →
        ∃ out_row, out !! i = Some out_row
                   ∧ ∀ j, out_row !! j = cell_text text <$> row !! j.
Proof.
  intros Hrect. unfold _extract_text_from_table.
  assert (_validate_table_shape table = Ok ()) as ->
    by (apply validate_table_shape_rectangular; eauto).
  simpl. eexists. split; [done|]. destruct Hrect as [Hne Hall].
  split_and!.
  - by rewrite length_fmap.
  - split; [by destruct table|].
    apply Forall_fmap. eapply Forall_impl; [exact Hall|].
    intros row Hrow. simpl. by rewrite length_fmap.
  - intros i row Hi. eexists. split.
    + rewrite list_lookup_fmap, Hi. done.
    + intros j. by rewrite list_lookup_fmap.
Qed.

Lemma text_projection_keeps_shape_witness :
  ∃ out,
    _extract_text_from_table el_text
      [[Some cell_a; Some cell_b]; [Some cell_c; None]] = Ok out
    ∧ length out = 2.
Proof.
  destruct (text_projection_keeps_shape el_text
              [[Some cell_a; Some cell_b]; [Some cell_c; None]] 2)
    as (out & Hout & Hlen & _).
  - split; [discriminate | repeat constructor].
  - exists out. split; [exact Hout | exact Hlen].
Defined.

(** ** Header merge: accepted headers and the errors raised *)

Lemma add_header_nonempty_header_keeps_rows_witness :
  ∃ out,
    add_header_to_table [["1"; "2"]; ["3"; "4"]] (Some ["x"; "y"]) = Ok out
    ∧ length out = 2.
Proof.
  destruct (add_header_nonempty_header_keeps_rows
              [["1"; "2"]; ["3"; "4"]] 2 ["x"; "y"])
    as (out & Hout & Hlen & _).
  - split; [discriminate | repeat constructor].
  - discriminate.
  - reflexivity.
  - apply (bool_decide_unpack _). vm_compute. exact I.
  - exists out. split; [exact Hout | exact Hlen].
Defined.

Lemma add_header_explicit_keys_witness :
  NoDup ["x"; "y"] ∧ length ["x"; "y"] = 2.
Proof.
  destruct (add_header_explicit_keys [["1"; "2"]; ["3"; "4"]] 2 ["x"; "y"]
              [{["x" := "1"; "y" := "2"]}; {["x" := "3"; "y" := "4"]}])
    as (Hnodup & Hlen & _).
  - split; [discriminate | repeat constructor].
  - vm_compute. reflexivity.
  - split; [exact Hnodup | exact Hlen].
Defined.

Lemma validate_table_shape_IndexError {A} (table : list (list A)) :
  _validate_table_shape table = Raise IndexError → table = [].
Proof.
  destruct table as [|row0 rest]; [done|]. intros Hraise. exfalso.
  unfold _validate_table_shape, getitem in Hraise. simpl in Hraise.
  destruct (check_rows_Raise (length row0) 0 (drop 0 rest))
    as (k & row & _ & _ & _ & Heq); [by rewrite Hraise|].
  by rewrite Heq in Hraise.
Qed.

(** Every error of [add_header_to_table] is one of three: [IndexError] on the
    grid without rows, the validator's [InvalidTableError] on a grid that is
    not rectangular, or [InvalidTableHeaderError] for an explicit header of
    the wrong length or with a repeated label.  In particular a call without
    header never raises [InvalidTableHeaderError], and a rectangular grid with
    an accepted header is always mapped. *)
Theorem add_header_to_table_errors (table : list (list string))
    (header : option (list string)) (e : exception) :
  add_header_to_table table header = Raise e →
  (e = IndexError ∧ table = [])
  ∨ (∃ n idx len, e = InvalidTableError n idx len
                  ∧ _validate_table_shape table = Raise e)
  ∨ (∃ h row0 rest,
       header = Some h ∧ table = row0 :: rest
       ∧ ((e = InvalidTableHeaderError (HeaderLength (length h) (length row0))
           ∧ length h ≠ length row0)
          ∨ (e = InvalidTableHeaderError HeaderRepeated
             ∧ length h = length row0 ∧ ¬ NoDup h))).
Proof.
  intros Hraise.
  destruct (_validate_table_shape table) as [[]|e'] eqn:Hvalid.
  - apply validate_table_shape_Ok in Hvalid as (row0 & rest & -> & Hrest).
    destruct header as [h|].
    + rewrite add_header_explicit in Hraise by done.
      do 2 right. exists h, row0, rest. split_and!; [done..|].
      case_decide as Hlen; [injection Hraise as <-; by left|].
      case_decide as Hdup.
      * injection Hraise as <-. right. split_and!; [done | lia |].
        intros Hnodup%size_list_to_set_NoDup. lia.
      * exfalso.
        destruct (mapM_new_row h (row0 :: rest)) as (out & Hout & Hlen' & _).
        { constructor; [lia|]. eapply Forall_impl; [exact Hrest|].
          simpl. lia. }
        rewrite Hout in Hraise. simpl in Hraise.
        destruct h; [|done]. by destruct out.
    + exfalso. rewrite (add_header_accepted row0 rest None row0) in Hraise
        by done.
      destruct (mapM_new_row row0 (row0 :: rest)) as (out & Hout & Hlen & _);
        [by constructor|].
      rewrite Hout in Hraise. simpl in Hraise. by destruct out.
  - assert (e = e') as ->.
    { unfold add_header_to_table in Hraise. rewrite Hvalid in Hraise.
      by injection Hraise. }
    destruct (validate_table_shape_Raise _ _ Hvalid) as [->|(n & idx & len & ->)].
    + left. split; [done|]. by apply validate_table_shape_IndexError.
    + right. left. eauto.
Qed.

Lemma add_header_to_table_errors_witness :
  add_header_to_table [["1"; "2"; "3"]] (Some ["A"; "B"])
  = Raise (InvalidTableHeaderError (HeaderLength 2 3))
  ∧ ((InvalidTableHeaderError (HeaderLength 2 3) = IndexError
      ∧ [["1"; "2"; "3"]] = [])
     ∨ (∃ n idx len,
          InvalidTableHeaderError (HeaderLength 2 3) = InvalidTableError n idx len
          ∧ _validate_table_shape [["1"; "2"; "3"]]
            = Raise (InvalidTableHeaderError (HeaderLength 2 3)))
     ∨ (∃ h row0 rest,
          Some ["A"; "B"] = Some h ∧ [["1"; "2"; "3"]] = row0 :: rest
          ∧ ((InvalidTableHeaderError (HeaderLength 2 3)
              = InvalidTableHeaderError (HeaderLength (length h) (length row0))
              ∧ length h ≠ length row0)
             ∨ (InvalidTableHeaderError (HeaderLength 2 3)
                = InvalidTableHeaderError HeaderRepeated
                ∧ length h = length row0 ∧ ¬ NoDup h)))).
Proof.
  split; [reflexivity|].
  apply (add_header_to_table_errors [["1"; "2"; "3"]] (Some ["A"; "B"])).
  reflexivity.
Defined.

(** ** Probing a cell *)

Lemma extract_single_element_Multiple {E} (l : list E) :
  extract_single_element l = Raise MultipleElementsFoundError ↔ 1 < length l.
Proof. destruct l as [|? [|? ?]]; simpl; split; first [done | lia]. Qed.

(** The [try]/[except] around a probe returns a cell exactly when the probed
    collection has at most one element, and the cell is that element, if any. *)
Lemma probe_Ok {E} (l : list E) (cell : option E) :
  try_except_NoElementFoundError (Some <$> extract_single_element l) (Ok None)
  = Ok cell
  ↔ length l ≤ 1 ∧ cell = head l.
Proof.
  destruct l as [|x [|y l]]; simpl; split.
  - intros [= <-]. split; [lia | done].
  - by intros [_ ->].
  - intros [= <-]. split; [lia | done].
  - by intros [_ ->].
  - done.
  - intros [? _]. lia.
Qed.

Section extractor_properties.
Context {Element : Type} `{Countable Element} `{!Collaborator Element}.
Implicit Types (element_list row col : list Element).
Implicit Types (table : list (list (option Element))).

(** ** The text extractors *)

(** [extract_text_from_simple_table] and [extract_text_from_table] raise
    exactly what their extractor raises, and otherwise return the extractor's
    grid with every cell replaced by its text: the second validation, inside
    [_extract_text_from_table], never fails on an extractor's grid. *)
Theorem text_extractors_project element_list :
  let project := λ table, (λ row : list (option Element),
                             cell_text text <$> row) <$> table in
  extract_text_from_simple_table element_list
  = project <$> extract_simple_table element_list
  ∧ extract_text_from_table element_list
    = project <$> extract_table element_list.
Proof.
  simpl. split.
  - unfold extract_text_from_simple_table.
    destruct (extract_simple_table element_list) as [table|e] eqn:Hextract;
      [|done].
    apply extract_simple_table_Ok in Hextract as (_ & _ & Hvalid).
    simpl. unfold _extract_text_from_table. by rewrite Hvalid.
  - unfold extract_text_from_table.
    destruct (extract_table element_list) as [table|e] eqn:Hextract; [|done].
    apply extract_table_Ok in Hextract.
    simpl. unfold _extract_text_from_table. by rewrite Hextract.
Qed.

(** ** The dense extractor: errors and result *)

(** [extract_simple_table] raises [IndexError] exactly on the empty
    collection; otherwise its only errors are [MultipleElementsFoundError],
    when some probed cell holds more than one element, and the size
    mismatch.  The final [_validate_table_shape] never fails. *)
Theorem extract_simple_table_errors element_list e :
  extract_simple_table element_list = Raise e →
  (e = IndexError ∧ element_list = [])
  ∨ (e = MultipleElementsFoundError
     ∧ ∃ anchor left_hand_element top_element,
         element_list !! 0 = Some anchor
         ∧ left_hand_element ∈ below element_list anchor
         ∧ top_element ∈ to_the_right_of element_list anchor
         ∧ 1 < length (below (to_the_right_of element_list left_hand_element)
                             top_element))
  ∨ (∃ table_size,
       e = TableExtractionError (SizeMismatch table_size (length element_list))
       ∧ table_size ≠ length element_list).
Proof.
  destruct (simple_table_cells element_list) as [table|e'] eqn:Hcells.
  - rewrite (extract_simple_table_unfold _ _ Hcells).
    case_decide as Hsize; [intros [= <-]; do 2 right; eauto|].
    destruct (simple_table_cells_shape _ _ Hcells)
      as (anchor & Hanchor & Hlen & Hrows).
    assert (_validate_table_shape table = Ok ()) as ->; [|done].
    apply validate_table_shape_rectangular. eexists. split; [|done].
    intros ->. simpl in Hsize. destruct element_list; [done|].
    simpl in Hsize. lia.
  - unfold extract_simple_table. rewrite Hcells. intros [= <-].
    unfold simple_table_cells, getitem in Hcells.
    destruct element_list as [|anchor rest] eqn:Hlist; simpl in Hcells.
    { injection Hcells as <-. by left. }
    rewrite <-Hlist in *. right. left.
    apply mapM_Raise in Hcells
      as (left_hand_element & Hleft & (top & Htop & Hcell)%mapM_Raise).
    unfold simple_cell in Hcell.
    apply try_except_Raise in Hcell as [Hprobe Hne].
    pose proof (extract_single_element_Raise _ _ Hprobe) as [->| ->]; [done|].
    split; [done|]. exists anchor, left_hand_element, top.
    split_and!; [by rewrite Hlist | done | done |].
    by apply extract_single_element_Multiple.
Qed.

(** A grid returned by [extract_simple_table] has one row per element of the
    first column and one column per element of the first row, as many cells
    as the collection has elements, and the cell on the line of
    [left_hand_element] under [top_element] is the single element to the
    right of the former and below the latter, or empty when there is none. *)
Theorem extract_simple_table_result element_list table :
  extract_simple_table element_list = Ok table →
  ∃ anchor,
    element_list !! 0 = Some anchor
    ∧ length table = length (below element_list anchor)
    ∧ length (below element_list anchor)
      * length (to_the_right_of element_list anchor)
      = length element_list
    ∧ ∀ i left_hand_element,
        below element_list anchor !! i = Some left_hand_element →
        ∃ table_row,
          table !! i = Some table_row
          ∧ length table_row = length (to_the_right_of element_list anchor)
          ∧ ∀ j top_element,
              to_the_right_of element_list anchor !! j = Some top_element →
              length (below (to_the_right_of element_list left_hand_element)
                            top_element) ≤ 1
              ∧ table_row !! j
                = Some (head (below (to_the_right_of element_list
                                                     left_hand_element)
                                    top_element)).
Proof.
  intros (Hcells & Hsize & _)%extract_simple_table_Ok.
  destruct (simple_table_cells_shape _ _ Hcells)
    as (anchor & Hanchor & Hlen & Hrows).
  exists anchor. split_and!; [done | done | |].
  { by rewrite <-Hsize, (sum_list_lengths _ _ Hrows), Hlen. }
  unfold simple_table_cells, getitem in Hcells. rewrite Hanchor in Hcells.
  simpl in Hcells. apply mapM_Ok in Hcells.
  intros i left_hand_element Hi.
  destruct (Forall2_lookup_l _ _ _ _ _ Hcells Hi) as (table_row & Hrow & Hcols).
  exists table_row. split_and!; [done | by apply mapM_Ok_length in Hcols |].
  apply mapM_Ok in Hcols. intros j top_element Hj.
  destruct (Forall2_lookup_l _ _ _ _ _ Hcols Hj) as (cell & Hcell & Hprobe).
  unfold simple_cell in Hprobe. apply probe_Ok in Hprobe as [Hle ->]. done.
Qed.

(** [extract_simple_table] returns a grid as soon as the collection has a
    first element, every probed cell holds at most one element, and the
    first column times the first row count as many cells as the collection
    has elements. *)
Theorem extract_simple_table_returns element_list anchor :
  element_list !! 0 = Some anchor →
  (∀ left_hand_element top_element,
     left_hand_element ∈ below element_list anchor →
     top_element ∈ to_the_right_of element_list anchor →
     length (below (to_the_right_of element_list left_hand_element)
                   top_element) ≤ 1) →
  length (below element_list anchor)
  * length (to_the_right_of element_list anchor)
  = length element_list →
  ∃ table, extract_simple_table element_list = Ok table.
Proof.
  intros Hanchor Hprobes Hsize.
  destruct (extract_simple_table element_list) as [table|e] eqn:Hextract;
    [eauto|].
  exfalso.
  destruct (extract_simple_table_Raise _ _ Hextract) as [->|[->|[n ->]]].
  - unfold extract_simple_table, simple_table_cells, getitem in Hextract.
    rewrite Hanchor in Hextract. simpl in Hextract.
    apply bind_Raise in Hextract as [Hloop|(table & Hloop & Hrest)].
    + apply mapM_Raise in Hloop as (? & _ & (? & _ & Hcell)%mapM_Raise).
      by apply simple_cell_Raise in Hcell.
    + case_decide; [done|].
      apply bind_Raise in Hrest as [Hvalid|(? & _ & [=])].
      apply validate_table_shape_IndexError in Hvalid as ->.
      apply mapM_Ok, Forall2_length in Hloop. simpl in Hloop.
      destruct element_list; [done|]. rewrite Hloop in Hsize. done.
  - destruct (simple_table_cells element_list) as [table|e'] eqn:Hcells.
    + rewrite (extract_simple_table_unfold _ _ Hcells) in Hextract.
      case_decide; [done|].
      apply bind_Raise in Hextract as [Hvalid|(? & _ & [=])].
      by apply validate_table_shape_Raise in Hvalid as [?|(? & ? & ? & ?)].
    + unfold simple_table_cells, getitem in Hcells.
      rewrite Hanchor in Hcells. simpl in Hcells.
      apply mapM_Raise in Hcells
        as (left_hand_element & Hleft & (top & Htop & Hcell)%mapM_Raise).
      unfold simple_cell in Hcell.
      apply try_except_Raise in Hcell as [Hprobe Hne].
      pose proof (extract_single_element_Raise _ _ Hprobe) as [->| ->]; [done|].
      apply extract_single_element_Multiple in Hprobe.
      specialize (Hprobes _ _ Hleft Htop). lia.
  - destruct (simple_table_cells element_list) as [table|e'] eqn:Hcells.
    + rewrite (extract_simple_table_unfold _ _ Hcells) in Hextract.
      destruct (simple_table_cells_shape _ _ Hcells)
        as (anchor' & Hanchor' & Hlen & Hrows).
      assert (anchor' = anchor) as -> by congruence.
      rewrite (sum_list_lengths _ _ Hrows), Hlen in Hextract.
      case_decide; [done|].
      apply bind_Raise in Hextract as [Hvalid|(? & _ & [=])].
      by apply validate_table_shape_Raise in Hvalid as [?|(? & ? & ? & ?)].
    + unfold extract_simple_table in Hextract. rewrite Hcells in Hextract.
      injection Hextract as ->.
      by apply simple_table_cells_Raise in Hcells as [[? _]|?].
Qed.
End extractor_properties.

(** ** The built-in [sorted]: order of the result, and when it returns *)

Lemma mapM_total {A B} (f : A → result B) (l : list A) :
  (∀ a, a ∈ l → ∃ b, f a = Ok b) → ∃ k, mapM f l = Ok k.
Proof.
  induction l as [|a l IH]; intros Hall; simpl; [by eexists|].
  destruct (Hall a) as [b ->]; [left|]. simpl. fold (mapM f l).
  destruct IH as [k ->]; [|by eexists].
  intros a' Ha'. apply Hall. by right.
Qed.

Lemma mapM_Ok_fmap {A B} (f : A → result B) (g : A → B) (l : list A)
    (k : list B) :
  mapM f l = Ok k → (∀ a b, a ∈ l → f a = Ok b → b = g a) → k = g <$> l.
Proof.
  intros Hk%mapM_Ok. induction Hk as [|a b l k Hab _ IH]; intros Hg; [done|].
  csimpl. f_equal.
  - apply Hg; [left | done].
  - apply IH. intros a' b' Ha'. apply Hg. by right.
Qed.

Section insertion.
Context {A : Type} (before : Z → Z → bool).
Hypothesis before_asym : ∀ a b, before a b = true → before b a = false.
Hypothesis before_trans :
  ∀ a b c, before a b = false → before b c = false → before a c = false.

Lemma insert_sorted_in_key_order (x : Z * A) (l : list (Z * A)) :
  in_key_order before l → in_key_order before (insert_sorted before x l).
Proof.
  induction l as [|y l IH]; simpl; [by split|].
  intros [Hy Hl]. destruct (before x.1 y.1) eqn:Hxy; simpl.
  - split_and!; [|done..]. constructor; [by apply before_asym|].
    eapply Forall_impl; [exact Hy|]. intros z Hz. simpl in *.
    eapply before_trans; [exact Hz|]. by apply before_asym.
  - split; [|by apply IH].
    rewrite insert_sorted_Permutation. by constructor.
Qed.

Lemma foldl_insert_sorted_in_key_order (l acc : list (Z * A)) :
  in_key_order before acc →
  in_key_order before (foldl (λ acc x, insert_sorted before x acc) acc l).
Proof.
  revert acc. induction l as [|x l IH]; intros acc Hacc; simpl; [done|].
  by apply IH, insert_sorted_in_key_order.
Qed.
End insertion.

Lemma in_key_order_lookup {A} (before : Z → Z → bool) (l : list (Z * A))
    (i j : nat) (x y : Z * A) :
  in_key_order before l → i < j → l !! i = Some x → l !! j = Some y →
  before y.1 x.1 = false.
Proof.
  revert i j. induction l as [|z l IH]; intros i j Horder Hij Hi Hj; [done|].
  destruct Horder as [Hz Hl].
  destruct j as [|j]; [lia|]. destruct i as [|i]; simpl in *.
  - injection Hi as ->. by eapply Forall_lookup_1 in Hz.
  - apply (IH i j); [done | lia | done | done].
Qed.

(** The list returned by [sorted] is a rearrangement of its argument in which
    the keys never decrease, or never increase when [reverse] is set. *)
Lemma sorted_in_order {A} (l l' : list A) (key : A → result Z)
    (reverse : bool) :
  sorted l key reverse = Ok l' →
  l' ≡ₚ l
  ∧ ∀ i j a b ka kb,
      i < j → l' !! i = Some a → l' !! j = Some b →
      key a = Ok ka → key b = Ok kb →
      if reverse then (kb ≤ ka)%Z else (ka ≤ kb)%Z.
Proof.
  intros Hsorted. split; [by eapply sorted_Ok|].
  unfold sorted in Hsorted.
  apply bind_Ok in Hsorted as (keyed & Hkeyed%mapM_Ok & [= <-]).
  set (before := if reverse then (λ a b, b <? a)%Z else (λ a b, a <? b)%Z).
  set (ordered := foldl (λ acc x, insert_sorted before x acc) [] keyed).
  assert (in_key_order before ordered) as Horder.
  { apply foldl_insert_sorted_in_key_order; [| |done];
      unfold before; destruct reverse; intros *;
      rewrite ?Z.ltb_lt, ?Z.ltb_ge; lia. }
  assert (Forall (λ p, key p.2 = Ok p.1) ordered) as Hkeys.
  { unfold ordered. rewrite foldl_insert_sorted_Permutation, app_nil_r.
    clear -Hkeyed. induction Hkeyed as [|a p l keyed Ha _ IH]; [done|].
    constructor; [|done].
    apply bind_Ok in Ha as (k & Hk & [= <-]). done. }
  intros i j a b ka kb Hij Hi Hj Ha Hb.
  rewrite list_lookup_fmap in Hi, Hj.
  destruct (ordered !! i) as [[ka' a']|] eqn:Hi'; [|done].
  destruct (ordered !! j) as [[kb' b']|] eqn:Hj'; [|done].
  simpl in Hi, Hj. simplify_eq.
  pose proof (Forall_lookup_1 _ _ _ _ Hkeys Hi') as Hka.
  pose proof (Forall_lookup_1 _ _ _ _ Hkeys Hj') as Hkb.
  simpl in Hka, Hkb. rewrite Ha in Hka. rewrite Hb in Hkb. simplify_eq.
  pose proof (in_key_order_lookup before ordered i j _ _ Horder Hij Hi' Hj')
    as Hbefore.
  unfold before in Hbefore. simpl in Hbefore.
  destruct reverse; apply Z.ltb_ge in Hbefore; lia.
Qed.

Lemma sorted_total {A} (l : list A) (key : A → result Z) (reverse : bool) :
  (∀ a, a ∈ l → ∃ k, key a = Ok k) → ∃ l', sorted l key reverse = Ok l'.
Proof.
  intros Hkeys. unfold sorted.
  destruct (mapM_total (λ a, k ← key a; Ok (k, a)) l) as [keyed ->];
    [|by eexists].
  intros a [k ->]%Hkeys. by eexists.
Qed.

(** ** The alignment extractor: errors and result *)

Section alignment_properties.
Context {Element : Type} `{Countable Element} `{!Collaborator Element}.
Implicit Types (element_list row col : list Element).
Implicit Types (table : list (list (option Element))).

Lemma rows_empty_iff element_list :
  elements (collect_rows_cols element_list).1 = [] ↔ element_list = [].
Proof.
  split; [|by intros ->].
  intros Hrows. destruct element_list as [|element rest] eqn:Hlist; [done|].
  rewrite <-Hlist in *.
  assert (horizontally_in_line_with element_list element
          ∈ elements (collect_rows_cols element_list).1) as Hin.
  { apply elem_of_elements, elem_of_rows. exists element.
    split; [|done]. rewrite Hlist. left. }
  rewrite Hrows in Hin. by apply elem_of_nil in Hin.
Qed.

Lemma table_cell_Ok row col cell :
  table_cell row col = Ok cell
  ↔ length (list_intersection row col) ≤ 1
    ∧ cell = head (list_intersection row col).
Proof. unfold table_cell. apply probe_Ok. Qed.

(** The grid of the two loops of [extract_table]. *)
Lemma table_loops_Ok (sorted_rows sorted_cols : list (list Element)) table :
  mapM (λ row, mapM (table_cell row) sorted_cols) sorted_rows = Ok table →
  table = (λ row, (λ col, head (list_intersection row col)) <$> sorted_cols)
          <$> sorted_rows
  ∧ ∀ row col, row ∈ sorted_rows → col ∈ sorted_cols →
               length (list_intersection row col) ≤ 1.
Proof.
  intros Hloops. split.
  - eapply mapM_Ok_fmap; [exact Hloops|]. intros row table_row _ Hrow.
    eapply mapM_Ok_fmap; [exact Hrow|]. intros col cell _ Hcell.
    by apply table_cell_Ok in Hcell as [_ ->].
  - apply mapM_Ok in Hloops.
    intros row col (i & Hi)%list_elem_of_lookup (j & Hj)%list_elem_of_lookup.
    destruct (Forall2_lookup_l _ _ _ _ _ Hloops Hi) as (table_row & _ & Hrow).
    apply mapM_Ok in Hrow.
    destruct (Forall2_lookup_l _ _ _ _ _ Hrow Hj) as (cell & _ & Hcell).
    by apply table_cell_Ok in Hcell as [? _].
Qed.

(** Every error of [extract_table]: [IndexError] exactly for the empty
    collection (from validating a grid without rows), the two membership
    errors, [ValueError] when a query returns an empty line for an element
    (from [min] of no coordinate), and [MultipleElementsFoundError] when a row
    and a column share more than one element.  The final
    [_validate_table_shape] never raises [InvalidTableError]. *)
Theorem extract_table_errors element_list e :
  extract_table element_list = Raise e →
  (e = IndexError ∧ element_list = [])
  ∨ e = TableExtractionError MultipleRows
  ∨ e = TableExtractionError MultipleColumns
  ∨ (e = ValueError
     ∧ ∃ element, element ∈ element_list
         ∧ (horizontally_in_line_with element_list element = []
            ∨ vertically_in_line_with element_list element = []))
  ∨ (e = MultipleElementsFoundError
     ∧ ∃ row col,
         row ∈ (collect_rows_cols element_list).1
         ∧ col ∈ (collect_rows_cols element_list).2
         ∧ 1 < length (list_intersection row col)).
Proof.
  intros Hraise.
  destruct (decide (sum_of_sizes (collect_rows_cols element_list).1
                    = size (distinct_elements (collect_rows_cols element_list).1)))
    as [Hrows|Hrows]; cycle 1.
  { rewrite extract_table_rows_error in Hraise by done.
    injection Hraise as <-. auto. }
  destruct (decide (sum_of_sizes (collect_rows_cols element_list).2
                    = size (distinct_elements (collect_rows_cols element_list).2)))
    as [Hcols|Hcols]; cycle 1.
  { rewrite extract_table_cols_error in Hraise by done.
    injection Hraise as <-. auto. }
  rewrite extract_table_checked in Hraise by done.
  apply bind_Raise in Hraise as [Hsort|(sorted_rows & Hsorted_rows & Hraise)].
  { apply sorted_Raise in Hsort as (row & Hrow%elem_of_elements & Hmin).
    apply elem_of_rows in Hrow as (element & Hin & ->).
    destruct (y0 <$> _) eqn:Hline; [|done]. injection Hmin as <-.
    apply fmap_nil_inv in Hline. do 3 right. left. eauto. }
  apply bind_Raise in Hraise as [Hsort|(sorted_cols & Hsorted_cols & Hraise)].
  { apply sorted_Raise in Hsort as (col & Hcol%elem_of_elements & Hmin).
    apply elem_of_cols in Hcol as (element & Hin & ->).
    destruct (x0 <$> _) eqn:Hline; [|done]. injection Hmin as <-.
    apply fmap_nil_inv in Hline. do 3 right. left. eauto. }
  apply sorted_Ok in Hsorted_rows, Hsorted_cols.
  apply bind_Raise in Hraise as [Hloop|(table & Hloop & Hraise)].
  { apply mapM_Raise in Hloop as (row & Hrow & (col & Hcol & Hcell)%mapM_Raise).
    unfold table_cell in Hcell. apply try_except_Raise in Hcell as [Hprobe Hne].
    pose proof (extract_single_element_Raise _ _ Hprobe) as [->| ->]; [done|].
    do 4 right. split; [done|]. exists row, col. split_and!.
    - rewrite Hsorted_rows in Hrow. by apply elem_of_elements.
    - rewrite Hsorted_cols in Hcol. by apply elem_of_elements.
    - by apply extract_single_element_Multiple. }
  apply bind_Raise in Hraise as [Hvalid|(? & _ & [=])].
  destruct table as [|table_row table].
  - injection Hvalid as <-. left. split; [done|].
    apply mapM_Ok_length in Hloop. destruct sorted_rows; [|done].
    apply Permutation_nil_l in Hsorted_rows. by apply rows_empty_iff.
  - exfalso.
    assert (_validate_table_shape (table_row :: table) = Ok ()) as Hok;
      [|by rewrite Hok in Hvalid].
    apply validate_table_shape_rectangular. exists (length sorted_cols).
    split; [done|]. apply mapM_Ok in Hloop. apply Forall_forall.
    intros r (i & Hi)%list_elem_of_lookup.
    destruct (Forall2_lookup_r _ _ _ _ _ Hloop Hi) as (row & _ & Hrow).
    by apply mapM_Ok_length in Hrow.
Qed.

(** A grid returned by [extract_table] lists the distinct row collections
    from the top of the page down (the smallest [y0] of a row never
    increases) and the distinct column collections from left to right (the
    smallest [x0] of a column never decreases); the cell of a row and a
    column is the element they share, or empty when they share none, and no
    row shares more than one element with a column. *)
Theorem extract_table_result element_list table :
  extract_table element_list = Ok table →
  ∃ sorted_rows sorted_cols,
    sorted_rows ≡ₚ elements (collect_rows_cols element_list).1
    ∧ sorted_cols ≡ₚ elements (collect_rows_cols element_list).2
    ∧ (∀ i j r1 r2 k1 k2,
         i < j → sorted_rows !! i = Some r1 → sorted_rows !! j = Some r2 →
         py_min (y0 <$> r1) = Ok k1 → py_min (y0 <$> r2) = Ok k2 →
         (k2 ≤ k1)%Z)
    ∧ (∀ i j c1 c2 k1 k2,
         i < j → sorted_cols !! i = Some c1 → sorted_cols !! j = Some c2 →
         py_min (x0 <$> c1) = Ok k1 → py_min (x0 <$> c2) = Ok k2 →
         (k1 ≤ k2)%Z)
    ∧ table = (λ row, (λ col, head (list_intersection row col)) <$> sorted_cols)
              <$> sorted_rows
    ∧ ∀ row col, row ∈ sorted_rows → col ∈ sorted_cols →
                 length (list_intersection row col) ≤ 1.
Proof.
  unfold extract_table.
  destruct (collect_rows_cols element_list) as [rows cols]. simpl.
  repeat case_decide; [done..|].
  intros (sorted_rows & Hrows & Hrest)%bind_Ok.
  apply bind_Ok in Hrest as (sorted_cols & Hcols & Hrest).
  apply bind_Ok in Hrest as (table' & Hloops & Hrest).
  apply bind_Ok in Hrest as ([] & _ & [= ->]).
  apply sorted_in_order in Hrows as [Hrows_perm Hrows_order].
  apply sorted_in_order in Hcols as [Hcols_perm Hcols_order].
  apply table_loops_Ok in Hloops as [Htable Hcells].
  exists sorted_rows, sorted_cols.
  split_and!; [done | done | exact Hrows_order | exact Hcols_order | done..].
Qed.

(** [extract_table] returns a grid whenever the collection is not empty,
    both membership checks pass, every element has a non-empty line in each
    direction, and no row collection shares more than one element with a
    column collection. *)
Theorem extract_table_returns element_list :
  element_list ≠ [] →
  sum_of_sizes (collect_rows_cols element_list).1
  = size (distinct_elements (collect_rows_cols element_list).1) →
  sum_of_sizes (collect_rows_cols element_list).2
  = size (distinct_elements (collect_rows_cols element_list).2) →
  (∀ element, element ∈ element_list →
     horizontally_in_line_with element_list element ≠ []
     ∧ vertically_in_line_with element_list element ≠ []) →
  (∀ row col,
     row ∈ (collect_rows_cols element_list).1 →
     col ∈ (collect_rows_cols element_list).2 →
     length (list_intersection row col) ≤ 1) →
  ∃ table, extract_table element_list = Ok table.
Proof.
  intros Hne Hrows Hcols Hlines Hcells.
  rewrite extract_table_checked by done.
  destruct (sorted_total (elements (collect_rows_cols element_list).1)
              (λ row, py_min (y0 <$> row)) true)
    as [sorted_rows Hsorted_rows].
  { intros row Hrow%elem_of_elements.
    apply elem_of_rows in Hrow as (element & Hin & ->). apply py_min_Ok.
    intros Hnil%fmap_nil_inv. by destruct (Hlines element Hin). }
  destruct (sorted_total (elements (collect_rows_cols element_list).2)
              (λ col, py_min (x0 <$> col)) false)
    as [sorted_cols Hsorted_cols].
  { intros col Hcol%elem_of_elements.
    apply elem_of_cols in Hcol as (element & Hin & ->). apply py_min_Ok.
    intros Hnil%fmap_nil_inv. by destruct (Hlines element Hin). }
  rewrite Hsorted_rows, Hsorted_cols. simpl.
  apply sorted_Ok in Hsorted_rows, Hsorted_cols.
  destruct (mapM_total (λ row, mapM (table_cell row) sorted_cols) sorted_rows)
    as [table Hloops].
  { intros row Hrow. apply mapM_total. intros col Hcol. eexists.
    apply table_cell_Ok. split; [|done]. apply Hcells.
    - rewrite Hsorted_rows in Hrow. by apply elem_of_elements.
    - rewrite Hsorted_cols in Hcol. by apply elem_of_elements. }
  rewrite Hloops. simpl. exists table.
  assert (_validate_table_shape table = Ok ()) as ->; [|done].
  apply validate_table_shape_rectangular. exists (length sorted_cols). split.
  - intros ->. apply mapM_Ok_length in Hloops. destruct sorted_rows; [|done].
    apply Permutation_nil_l in Hsorted_rows. by apply Hne, rows_empty_iff.
  - apply mapM_Ok in Hloops. apply Forall_forall.
    intros r (i & Hi)%list_elem_of_lookup.
    destruct (Forall2_lookup_r _ _ _ _ _ Hloops Hi) as (row & _ & Hrow).
    by apply mapM_Ok_length in Hrow.
Qed.

(** On a collection of one element, whose four queries return just that
    element, both extractors return the 1 x 1 grid holding it. *)
Theorem single_element_tables (element : Element) :
  to_the_right_of [element] element = [element] →
  below [element] element = [element] →
  horizontally_in_line_with [element] element = [element] →
  vertically_in_line_with [element] element = [element] →
  extract_simple_table [element] = Ok [[Some element]]
  ∧ extract_table [element] = Ok [[Some element]].
Proof.
  intros Hright Hbelow Hrow Hcol. split.
  - unfold extract_simple_table, simple_table_cells, getitem. simpl.
    rewrite Hright, Hbelow. simpl. unfold simple_cell.
    rewrite Hright, Hbelow. done.
  - assert (list_intersection [element] [element] = [element]) as Hcell.
    { simpl. destruct (decide_rel elem_of element [element]) as [|Hnin];
        [done|]. destruct Hnin. left. }
    unfold extract_table, collect_rows_cols. simpl. rewrite Hrow, Hcol.
    rewrite !(left_id_L ∅ (∪)).
    unfold sum_of_sizes, distinct_elements. rewrite elements_singleton.
    replace (mjoin [[element]]) with [element] by done.
    rewrite size_list_to_set by (apply NoDup_singleton).
    rewrite !decide_False by (intros Hne; by apply Hne).
    unfold sorted, table_cell. cbn -[list_intersection]. by rewrite Hcell.
Qed.
End alignment_properties.

(** ** The further properties on the sample layouts *)

Lemma extract_simple_table_errors_witness :
  ∃ table_size,
    TableExtractionError (SizeMismatch 4 3)
    = TableExtractionError (SizeMismatch table_size (length gapped_2x2))
    ∧ table_size ≠ length gapped_2x2.
Proof.
  destruct (extract_simple_table_errors gapped_2x2
              (TableExtractionError (SizeMismatch 4 3)))
    as [[Hindex _]|[[Hmultiple _]|Hsize]].
  - vm_compute. reflexivity.
  - discriminate Hindex.
  - discriminate Hmultiple.
  - exact Hsize.
Defined.

Lemma extract_simple_table_result_witness :
  ∃ anchor,
    full_2x2 !! 0 = Some anchor
    ∧ length [[Some cell_a; Some cell_b]; [Some cell_c; Some cell_d]]
      = length (below full_2x2 anchor).
Proof.
  destruct (extract_simple_table_result full_2x2
              [[Some cell_a; Some cell_b]; [Some cell_c; Some cell_d]])
    as (anchor & Hanchor & Hlen & _).
  - vm_compute. reflexivity.
  - exists anchor. split; [exact Hanchor | exact Hlen].
Defined.

Lemma extract_simple_table_returns_witness :
  ∃ table, extract_simple_table full_2x2 = Ok table.
Proof.
  apply (extract_simple_table_returns full_2x2 cell_a).
  - reflexivity.
  - intros left_hand_element top_element Hleft Htop.
    assert (Forall (λ l, Forall (λ t,
              length (below (to_the_right_of full_2x2 l) t) ≤ 1)
              (to_the_right_of full_2x2 cell_a)) (below full_2x2 cell_a))
      as Hall by (apply (bool_decide_unpack _); vm_compute; exact I).
    eapply Forall_forall in Hall; [|exact Hleft].
    eapply Forall_forall in Hall; [|exact Htop]. exact Hall.
  - vm_compute. reflexivity.
Defined.

Lemma extract_table_errors_witness :
  ∃ row col,
    row ∈ (collect_rows_cols crowded_2x2).1
    ∧ col ∈ (collect_rows_cols crowded_2x2).2
    ∧ 1 < length (list_intersection row col).
Proof.
  destruct (extract_table_errors crowded_2x2 MultipleElementsFoundError)
    as [[Hindex _]|[Hrows|[Hcols|[[Hvalue _]|[_ Hshared]]]]].
  - vm_compute. reflexivity.
  - discriminate Hindex.
  - discriminate Hrows.
  - discriminate Hcols.
  - discriminate Hvalue.
  - exact Hshared.
Defined.

Lemma extract_table_result_witness :
  ∃ sorted_rows sorted_cols,
    sorted_rows ≡ₚ elements (collect_rows_cols gapped_2x2).1
    ∧ sorted_cols ≡ₚ elements (collect_rows_cols gapped_2x2).2
    ∧ [[Some cell_a; Some cell_b]; [Some cell_c; None]]
      = (λ row, (λ col, head (list_intersection row col)) <$> sorted_cols)
        <$> sorted_rows.
Proof.
  destruct (extract_table_result gapped_2x2
              [[Some cell_a; Some cell_b]; [Some cell_c; None]])
    as (sorted_rows & sorted_cols & Hrows & Hcols & _ & _ & Htable & _).
  - vm_compute. reflexivity.
  - exists sorted_rows, sorted_cols.
    split; [exact Hrows | split; [exact Hcols | exact Htable]].
Defined.

Lemma extract_table_returns_witness :
  ∃ table, extract_table gapped_2x2 = Ok table.
Proof.
  apply (extract_table_returns gapped_2x2).
  - discriminate.
  - vm_compute. reflexivity.
  - vm_compute. reflexivity.
  - intros element Helement.
    assert (Forall (λ e, horizontally_in_line_with gapped_2x2 e ≠ []
                         ∧ vertically_in_line_with gapped_2x2 e ≠ [])
                   gapped_2x2)
      as Hall by (apply (bool_decide_unpack _); vm_compute; exact I).
    eapply Forall_forall in Hall; [|exact Helement]. exact Hall.
  - intros row col Hrow%elem_of_elements Hcol%elem_of_elements.
    assert (Forall (λ r, Forall (λ c, length (list_intersection r c) ≤ 1)
                           (elements (collect_rows_cols gapped_2x2).2))
                   (elements (collect_rows_cols gapped_2x2).1))
      as Hall by (apply (bool_decide_unpack _); vm_compute; exact I).
    eapply Forall_forall in Hall; [|exact Hrow].
    eapply Forall_forall in Hall; [|exact Hcol]. exact Hall.
Defined.

Lemma single_element_tables_witness :
  extract_simple_table [cell_a] = Ok [[Some cell_a]]
  ∧ extract_table [cell_a] = Ok [[Some cell_a]].
Proof.
  apply (single_element_tables cell_a); vm_compute; reflexivity.
Defined.

(** ** No element is lost by the alignment extractor *)

Section alignment_elements.
Context {Element : Type} `{Countable Element} `{!Collaborator Element}.
Implicit Types (element_list row col : list Element).
Implicit Types (table : list (list (option Element))).

Lemma extract_table_Ok_loops element_list table :
  extract_table element_list = Ok table →
  ∃ sorted_rows sorted_cols,
    sorted_rows ≡ₚ elements (collect_rows_cols element_list).1
    ∧ sorted_cols ≡ₚ elements (collect_rows_cols element_list).2
    ∧ mapM (λ row, mapM (table_cell row) sorted_cols) sorted_rows = Ok table.
Proof.
  unfold extract_table.
  destruct (collect_rows_cols element_list) as [rows cols]. simpl.
  repeat case_decide; [done..|].
  intros (sorted_rows & Hrows & Hrest)%bind_Ok.
  apply bind_Ok in Hrest as (sorted_cols & Hcols & Hrest).
  apply bind_Ok in Hrest as (table' & Hloops & Hrest).
  apply bind_Ok in Hrest as ([] & _ & [= ->]).
  apply sorted_Ok in Hrows, Hcols. eauto.
Qed.

(** When [extract_table] returns a grid, every element of the collection
    that its own two line queries include is found in some cell of the
    grid. *)
Theorem extract_table_keeps_every_element element_list table element :
  extract_table element_list = Ok table →
  element ∈ element_list →
  element ∈ horizontally_in_line_with element_list element →
  element ∈ vertically_in_line_with element_list element →
  ∃ i j table_row,
    table !! i = Some table_row ∧ table_row !! j = Some (Some element).
Proof.
  intros (sorted_rows & sorted_cols & Hrows & Hcols & Hloops)%extract_table_Ok_loops
         Hin Hrow Hcol.
  apply table_loops_Ok in Hloops as [-> Hcells].
  assert (horizontally_in_line_with element_list element ∈ sorted_rows)
    as (i & Hi)%list_elem_of_lookup.
  { rewrite Hrows. apply elem_of_elements, elem_of_rows. eauto. }
  assert (vertically_in_line_with element_list element ∈ sorted_cols)
    as (j & Hj)%list_elem_of_lookup.
  { rewrite Hcols. apply elem_of_elements, elem_of_cols. eauto. }
  exists i, j. eexists. split.
  - rewrite list_lookup_fmap, Hi. done.
  - rewrite list_lookup_fmap, Hj. simpl. do 2 f_equal.
    assert (element ∈ list_intersection
                        (horizontally_in_line_with element_list element)
                        (vertically_in_line_with element_list element))
      as Hshared by (by apply list_elem_of_intersection).
    pose proof (Hcells _ _ (proj2 (list_elem_of_lookup _ _) (ex_intro _ i Hi))
                           (proj2 (list_elem_of_lookup _ _) (ex_intro _ j Hj)))
      as Hle.
    destruct (list_intersection _ _) as [|x [|y l]]; simpl in *.
    + by apply elem_of_nil in Hshared.
    + by apply list_elem_of_singleton in Hshared as ->.
    + lia.
Qed.
End alignment_elements.

Lemma extract_table_keeps_every_element_witness :
  ∃ i j table_row,
    [[Some cell_a; Some cell_b]; [Some cell_c; None]] !! i = Some table_row
    ∧ table_row !! j = Some (Some cell_c).
Proof.
  apply (extract_table_keeps_every_element gapped_2x2).
  - vm_compute. reflexivity.
  - apply (bool_decide_unpack _). vm_compute. exact I.
  - apply (bool_decide_unpack _). vm_compute. exact I.
  - apply (bool_decide_unpack _). vm_compute. exact I.
Defined.
